(** * Direct Grants API: a shallow embedding of [src/server.js]

    The server keeps two JavaScript [Map]s ([grants], [grantors]) and a cached
    whitelist [Set]; every route handler is a function of the request, of the
    answers of its collaborators (chain provider, whitelist source, uuid
    generator, clock) and of that state.  Handlers are embedded as pure
    functions returning the response together with the new state. *)

From Stdlib Require Import ZArith Lia List Bool Ascii String Sorting.Sorted Permutation.
From stdpp Require Import gmap strings list.

Local Open Scope Z_scope.

(** ** JavaScript primitives used by the server *)

Module JS.

(** Strings are sequences of 8-bit characters; the addresses, hashes and
    amounts handled by the server are ASCII. *)

Definition lower_ascii (c : ascii) : ascii :=
  let n := N_of_ascii c in
  if ((65 <=? n) && (n <=? 90))%N then ascii_of_N (n + 32) else c.

(** [String.prototype.toLowerCase] *)
Fixpoint toLowerCase (s : string) : string :=
  match s with
  | EmptyString => EmptyString
  | String c s' => String (lower_ascii c) (toLowerCase s')
  end.

(** White space removed by [String.prototype.trim]: TAB, LF, VT, FF, CR, SP. *)
Definition is_space (c : ascii) : bool :=
  let n := N_of_ascii c in (((9 <=? n) && (n <=? 13)) || (n =? 32))%N.

Fixpoint trimStart (s : string) : string :=
  match s with
  | String c s' => if is_space c then trimStart s' else s
  | EmptyString => EmptyString
  end.

Fixpoint trimEnd (s : string) : string :=
  match s with
  | EmptyString => EmptyString
  | String c s' =>
      match trimEnd s' with
      | EmptyString => if is_space c then EmptyString else String c EmptyString
      | t => String c t
      end
  end.

(** [String.prototype.trim] *)
Definition trim (s : string) : string := trimEnd (trimStart s).

(** [s.replace(pat, '')] with a string pattern: only the first occurrence of
    [pat] is removed. *)
Fixpoint remove_first (pat s : string) : string :=
  if String.prefix pat s then String.substring (String.length pat) (String.length s - String.length pat) s
  else match s with
       | EmptyString => EmptyString
       | String c s' => String c (remove_first pat s')
       end.

(** Truthiness of an optional string-valued field: [undefined] and [''] are
    falsy, every other string is truthy. *)
Definition truthy (o : option string) : bool :=
  match o with
  | Some (String _ _) => true
  | _ => false
  end.

(** [a || b] on optional strings. *)
Definition or_else (a b : option string) : option string :=
  if truthy a then a else b.

(** *** Decimal digits *)

Definition digit_char (d : Z) : ascii := ascii_of_N (48 + Z.to_N d).

Definition digit_val (c : ascii) : option Z :=
  let n := Z.of_N (N_of_ascii c) in
  if (48 <=? n) && (n <=? 57) then Some (n - 48) else None.

Definition is_digit (c : ascii) : bool :=
  match digit_val c with Some _ => true | None => false end.

(** Most significant digit first, accumulating into [acc]; [None] on a
    character that is not a decimal digit. *)
Fixpoint parse_digits (s : string) (acc : Z) : option Z :=
  match s with
  | EmptyString => Some acc
  | String c s' =>
      match digit_val c with
      | Some d => parse_digits s' (10 * acc + d)
      | None => None
      end
  end.

(** The decimal digits of [n >= 0] pushed in front of [acc]; [fuel] bounds the
    number of digits after the first. *)
Fixpoint push_digits (fuel : nat) (n : Z) (acc : string) : string :=
  let acc' := String (digit_char (n mod 10)) acc in
  match fuel with
  | O => acc'
  | S f => if n <? 10 then acc' else push_digits f (n / 10) acc'
  end.

Definition nat_toString (n : Z) : string :=
  push_digits (Z.to_nat (Z.log2 n)) n EmptyString.

(** [BigInt.prototype.toString()]: canonical decimal, with a sign for
    negative values. *)
Definition BigInt_toString (z : Z) : string :=
  if z <? 0 then String "-"%char (nat_toString (- z)) else nat_toString z.

(** The value of a digit in radix [r] (letters stand for 10 to 35). *)
Definition radix_digit (r : Z) (c : ascii) : option Z :=
  let n := Z.of_N (N_of_ascii c) in
  let v := if (48 <=? n) && (n <=? 57) then n - 48
           else if (97 <=? n) && (n <=? 122) then n - 87
           else if (65 <=? n) && (n <=? 90) then n - 55
           else r in
  if v <? r then Some v else None.

(** All of [s] as digits in radix [r]; [None] if some character is not one. *)
Fixpoint parse_radix (r : Z) (s : string) (acc : Z) : option Z :=
  match s with
  | EmptyString => Some acc
  | String c s' =>
      match radix_digit r c with
      | Some d => parse_radix r s' (r * acc + d)
      | None => None
      end
  end.

(** The value of the longest prefix of [s] made of digits in radix [r];
    [acc] is [None] until a digit has been read. *)
Fixpoint parse_radix_prefix (r : Z) (s : string) (acc : option Z) : option Z :=
  match s with
  | EmptyString => acc
  | String c s' =>
      match radix_digit r c with
      | Some d => parse_radix_prefix r s' (Some (r * default 0 acc + d))
      | None => acc
      end
  end.

Definition nonempty (s : string) : bool :=
  match s with EmptyString => false | _ => true end.

(** [BigInt(s)] (StringToBigInt): white space is trimmed, the empty string is
    zero, then either a radix prefix [0x], [0o], [0b] and digits, or an
    optional sign and decimal digits.  [None] stands for the [SyntaxError]
    raised on other text. *)
Definition BigInt (s : string) : option Z :=
  let u := trim s in
  match u with
  | EmptyString => Some 0
  | String a t =>
      if Ascii.eqb a "-"%char then
        if nonempty t then option_map Z.opp (parse_digits t 0) else None
      else if Ascii.eqb a "+"%char then
        if nonempty t then parse_digits t 0 else None
      else
        match t with
        | String c t' =>
            if Ascii.eqb a "0"%char && Ascii.eqb (lower_ascii c) "x"%char then
              if nonempty t' then parse_radix 16 t' 0 else None
            else if Ascii.eqb a "0"%char && Ascii.eqb (lower_ascii c) "o"%char then
              if nonempty t' then parse_radix 8 t' 0 else None
            else if Ascii.eqb a "0"%char && Ascii.eqb (lower_ascii c) "b"%char then
              if nonempty t' then parse_radix 2 t' 0 else None
            else parse_digits u 0
        | EmptyString => parse_digits u 0
        end
  end.

(** [parseInt(s)] without a radix: leading white space and a sign are
    skipped, [0x] selects radix 16, and the longest prefix of digits is read;
    [None] is [NaN].  The integer is exact, where the engine rounds to a
    Number; the one use in the server, as the end of a [slice], cannot tell
    the two apart. *)
Definition parseInt (s : string) : option Z :=
  let s1 := trimStart s in
  let '(neg, s2) :=
    match s1 with
    | String a t =>
        if Ascii.eqb a "-"%char then (true, t)
        else if Ascii.eqb a "+"%char then (false, t)
        else (false, s1)
    | EmptyString => (false, s1)
    end in
  let '(r, s3) :=
    match s2 with
    | String a (String c t) =>
        if Ascii.eqb a "0"%char && Ascii.eqb (lower_ascii c) "x"%char then (16, t) else (10, s2)
    | _ => (10, s2)
    end in
  option_map (fun v => if neg : bool then - v else v) (parse_radix_prefix r s3 None).

(** [array.slice(0, end)] where [end] is a Number ([None] is [NaN]). *)
Definition slice0 {A : Type} (l : list A) (end_ : option Z) : list A :=
  let len := Z.of_nat (length l) in
  let relativeEnd := default 0 end_ in
  let final := if relativeEnd <? 0 then Z.max (len + relativeEnd) 0 else Z.min relativeEnd len in
  firstn (Z.to_nat final) l.

(** [s.repeat(n)] *)
Fixpoint repeat_string (s : string) (n : nat) : string :=
  match n with
  | O => EmptyString
  | S n' => s +:+ repeat_string s n'
  end.

(** Exactly [k] decimal digits: [n mod 10^k], zero padded on the left. *)
Fixpoint fixed_digits (k : nat) (n : Z) (acc : string) : string :=
  match k with
  | O => acc
  | S k' => fixed_digits k' (n / 10) (String (digit_char (n mod 10)) acc)
  end.

(** *** Numbers (IEEE 754 binary64)

    A finite Number is a sign and a magnitude [m * 2^e] with integers [m], [e];
    zero is [m = 0].  All roundings below are computed exactly on integers. *)

Inductive number : Type := Num (neg : bool) (m e : Z).

(** Nearest integer to [n / d] ([d > 0]), ties to even. *)
Definition rne (n d : Z) : Z :=
  let q := n / d in
  let r := n mod d in
  if 2 * r <? d then q
  else if d <? 2 * r then q + 1
  else if Z.even q then q else q + 1.

(** [num / den < 2^l] *)
Definition below_pow2 (num den l : Z) : bool :=
  if 0 <=? l then num <? den * 2 ^ l else num * 2 ^ (- l) <? den.

(** The binary64 value nearest to the positive rational [num / den], ties to
    even, as [(m, e)] with [2^52 <= m <= 2^53]: the Number value of a decimal
    literal in the range of normal doubles. *)
Definition nearest_double (num den : Z) : Z * Z :=
  let l := Z.log2 num - Z.log2 den in
  let b := if below_pow2 num den l then l - 1 else l in
  let e := b - 52 in
  (if 0 <=? e then rne num (den * 2 ^ e) else rne (num * 2 ^ (- e)) den, e).

(** Nearest integer to [a * 2^e], ties upward. *)
Definition round_half_up (a e : Z) : Z :=
  if 0 <=? e then a * 2 ^ e else (2 * a + 2 ^ (- e)) / 2 ^ (1 - e).

(** [10^21 <= m * 2^e] *)
Definition ge_1e21 (m e : Z) : bool :=
  if 0 <=? e then 10 ^ 21 <=? m * 2 ^ e else 10 ^ 21 * 2 ^ (- e) <=? m.

(** [parseFloat] of the decimal text of the quotient [n / d] ([d > 0]): the
    nearest Number, with the sign of [n]. *)
Definition parseFloat (q : Z * Z) : number :=
  let '(n, d) := q in
  if n =? 0 then Num false 0 0
  else let '(m, e) := nearest_double (Z.abs n) d in Num (n <? 0) m e.

Section ToFixed.

(** [Number::toString] of a magnitude of at least [10^21] (exponential
    notation, shortest round-tripping digits) is left to the engine. *)
Variable exponential : Z -> Z -> string.

(** [Number.prototype.toFixed(f)]: the integer [n] with [n / 10^f] closest to
    the magnitude (the larger one on a tie), printed with [f] fraction digits;
    magnitudes from [10^21] on use [Number::toString]. *)
Definition toFixed (f : nat) (x : number) : string :=
  let '(Num s m e) := x in
  let body :=
    if ge_1e21 m e then exponential m e
    else
      let n := round_half_up (m * 10 ^ Z.of_nat f) e in
      let whole := nat_toString (n / 10 ^ Z.of_nat f) in
      match f with
      | O => whole
      | _ => whole +:+ String "."%char (fixed_digits f n EmptyString)
      end in
  if s then String "-"%char body else body.

End ToFixed.

End JS.

(** ** The parts of the ethers library used by the server

    [ethers] is a third-party package; its functions are embedded by their
    documented contract.  The 512-bit width guard of its fixed-point numbers
    is not represented. *)

Module Ethers.

Import JS.

(** [ethers.formatEther(wei)] prints the exact decimal expansion of
    [wei / 10^18]; the text is kept as that quotient. *)
Definition formatEther (wei : Z) : Z * Z := (wei, 10 ^ 18).

(** Longest prefix of decimal digits, and the rest. *)
Fixpoint span_digits (s : string) : string * string :=
  match s with
  | EmptyString => (EmptyString, EmptyString)
  | String c s' =>
      if is_digit c
      then let '(ds, rest) := span_digits s' in (String c ds, rest)
      else (EmptyString, s)
  end.

Fixpoint all_zero (s : string) : bool :=
  match s with
  | EmptyString => true
  | String c s' => Ascii.eqb c "0"%char && all_zero s'
  end.

Fixpoint all_digits (s : string) : bool :=
  match s with
  | EmptyString => true
  | String c s' => is_digit c && all_digits s'
  end.

(** The first [k] characters of [s], padded with ["0"] on the right. *)
Fixpoint pad_right (k : nat) (s : string) : string :=
  match k with
  | O => EmptyString
  | S k' =>
      match s with
      | EmptyString => String "0"%char (pad_right k' EmptyString)
      | String c s' => String c (pad_right k' s')
      end
  end.

(** [ethers.parseUnits(s, decimals)]: [s] must be an optional minus sign, a
    run of decimal digits, an optional point and a second run of digits, with
    at least one digit in all; fraction digits beyond [decimals] must be
    zeros; the result is the integer written by the sign, the whole part and
    the fraction padded to [decimals] digits.  [None] stands for the
    exception thrown on any other input. *)
Definition parseUnits (s : string) (decimals : nat) : option Z :=
  let '(neg, body) :=
    match s with
    | String c s' => if Ascii.eqb c "-"%char then (true, s') else (false, s)
    | EmptyString => (false, s)
    end in
  let '(whole, rest) := span_digits body in
  let frac :=
    match rest with
    | String c r => if Ascii.eqb c "."%char then r else rest
    | EmptyString => EmptyString
    end in
  if negb (all_digits frac) then None
  else if (String.length whole + String.length frac =? 0)%nat then None
  else if negb (all_zero (String.substring decimals (String.length frac - decimals) frac)) then None
  else
    match parse_digits (whole +:+ pad_right decimals frac) 0 with
    | Some v => Some (if neg then - v else v)
    | None => None
    end.

Definition parseEther (s : string) : option Z := parseUnits s 18.

End Ethers.

(** ** Data model *)

(** JSON values sent in responses. *)
#[warnings="-register-all"] Inductive json : Type :=
  | JNull
  | JStr (s : string)
  | JNum (n : Z)
  | JBool (b : bool)
  | JArr (items : list json)
  | JObj (fields : list (string * json)).

(** A response: HTTP status and JSON body ([res.json] alone is status 200). *)
Definition response : Type := Z * json.

(** The outcome of a call that may throw an [Error] with a message. *)
Inductive result (A : Type) : Type :=
  | Ok (a : A)
  | Throw (message : string).
Arguments Ok {A} a.
Arguments Throw {A} message.

(** The object stored in the [grants] map.  [mock] is [true] or [undefined]. *)
Record grant : Type := {
  id : string;
  recipient : string;
  grantor : string;
  reason : string;
  grossAmount : string;
  grossAmountFormatted : string;
  fee : string;
  feeFormatted : string;
  netAmount : string;
  netAmountFormatted : string;
  fundingTxHash : string;
  distributionTxHash : string;
  status : string;
  mock : bool;
  createdAt : Z
}.

(** The value stored in the [grantors] map. *)
Record grantor_stats : Type := {
  totalGrants : Z;
  totalAmount : Z
}.

(** A JavaScript [Map] iterates in insertion order: an association list with
    distinct keys, where [set] on a present key replaces the value in place. *)
Fixpoint Map_set {V : Type} (k : string) (v : V) (m : list (string * V)) : list (string * V) :=
  match m with
  | [] => [(k, v)]
  | (k', v') :: m' => if String.eqb k' k then (k, v) :: m' else (k', v') :: Map_set k v m'
  end.

Fixpoint Map_get {V : Type} (k : string) (m : list (string * V)) : option V :=
  match m with
  | [] => None
  | (k', v') :: m' => if String.eqb k' k then Some v' else Map_get k m'
  end.

Definition Map_values {V : Type} (m : list (string * V)) : list V := map snd m.

(** Process state: the two maps, the whitelist cache with its time stamp, and
    the transfers handed to [wallet.sendTransaction] so far (recipient and
    value), which is the server's trace on the chain. *)
Record state : Type := {
  grants : list (string * grant);
  grantors : gmap string grantor_stats;
  _whitelistCache : option (gset string);
  _whitelistCacheTime : Z;
  transfers : list (string * Z)
}.

Definition initial_state : state :=
  {| grants := []; grantors := ∅; _whitelistCache := None;
     _whitelistCacheTime := 0; transfers := [] |}.

(** *** Collaborators *)

(** An element of the whitelist document: an object (with its [address]
    property, if any) or a plain string. *)
Inductive whitelist_entry : Type :=
  | EntryObject (address : option string)
  | EntryString (s : string).

(** A transaction as returned by the provider; [tx_to] is [null] for a
    contract creation. *)
Record transaction : Type := {
  tx_to : option string;
  tx_from : string;
  tx_value : Z
}.

Record receipt : Type := { receipt_status : Z }.

(** What the outside world answers during one request. *)
Record world : Type := {
  clock : Z;                                         (* Date.now() in fetchWhitelist *)
  whitelist_fetch : option (list whitelist_entry);   (* fetch + res.json(), None when either throws *)
  chain_tx : result (option transaction);            (* getProvider().getTransaction(txHash) *)
  chain_receipt : result (option receipt);           (* getProvider().getTransactionReceipt(txHash) *)
  wallet : result bool;                              (* getWallet(): is the treasury key configured *)
  send_result : result string;                       (* w.sendTransaction(...): the hash, or an error *)
  uuid_mock : string;                                (* uuidv4() for the mock transaction hash *)
  uuid_id : string;                                  (* uuidv4() for the grant id *)
  created_at : Z                                     (* Date.now() for createdAt *)
}.

(** A request: JSON body and query string, both with string-valued fields. *)
Record request : Type := {
  body : gmap string string;
  query : gmap string string
}.

Definition TREASURY_ADDRESS : string := "0xccD7200024A8B5708d381168ec2dB0DC587af83F".
Definition FEE_PERCENT : Z := 5.
Definition WHITELIST_CACHE_TTL : Z := 5 * 60 * 1000.

(** ** The server *)

(** Control flow inside the [try] block: go on with a value, [return] a
    response, or [throw]. *)
Inductive flow (A : Type) : Type :=
  | Next (a : A)
  | Reply (r : response)
  | Raise (message : string).
Arguments Next {A} a.
Arguments Reply {A} r.
Arguments Raise {A} message.

#[global] Instance flow_bind : MBind flow := fun A B (k : A -> flow B) (m : flow A) =>
  match m with
  | Next a => k a
  | Reply r => Reply r
  | Raise e => Raise e
  end.

Definition await {A : Type} (r : result A) : flow A :=
  match r with
  | Ok a => Next a
  | Throw e => Raise e
  end.

(** What the server takes from its libraries without this development
    looking inside. *)
Class Collaborators : Type := {
  (** [ethers.isAddress], the address syntax check of the chain library *)
  isAddress : string -> bool;
  (** [Number::toString] for magnitudes from [10^21] on (see [JS.toFixed]) *)
  exponential : Z -> Z -> string;
  (** the message of the error thrown by [ethers.parseEther] on a malformed
      amount *)
  amount_error : string -> string
}.

Section Server.

Import JS.

Context {lib : Collaborators}.

(** *** Helpers *)

Definition formatETH (wei : Z) : string :=
  toFixed exponential 6 (parseFloat (Ethers.formatEther wei)) +:+ " ETH".

Definition parseETH (ethString : string) : option Z :=
  let cleaned := trim (remove_first " ETH" ethString) in
  Ethers.parseEther cleaned.

(** A property of a JSON object, [None] when absent or falsy (the empty
    string). *)
Definition field (o : gmap string string) (k : string) : option string :=
  match o !! k with
  | Some (String c s) => Some (String c s)
  | _ => None
  end.

Definition error_body (msg : string) : json := JObj [("error", JStr msg)].

Definition grant_json (g : grant) : json :=
  JObj ([ ("id", JStr (id g));
          ("recipient", JStr (recipient g));
          ("grantor", JStr (grantor g));
          ("reason", JStr (reason g));
          ("grossAmount", JStr (grossAmount g));
          ("grossAmountFormatted", JStr (grossAmountFormatted g));
          ("fee", JStr (fee g));
          ("feeFormatted", JStr (feeFormatted g));
          ("netAmount", JStr (netAmount g));
          ("netAmountFormatted", JStr (netAmountFormatted g));
          ("fundingTxHash", JStr (fundingTxHash g));
          ("distributionTxHash", JStr (distributionTxHash g));
          ("status", JStr (status g)) ]
        ++ (if mock g then [("mock", JBool true)] else [])
        ++ [ ("createdAt", JNum (createdAt g)) ]).

(** *** Whitelist middleware *)

(** [(e.address || e).toLowerCase()]; [None] is the [TypeError] on an object
    without a usable [address]. *)
Definition entry_address (e : whitelist_entry) : option string :=
  match e with
  | EntryObject (Some (String c s)) => Some (toLowerCase (String c s))
  | EntryObject _ => None
  | EntryString s => Some (toLowerCase s)
  end.

Fixpoint entry_addresses (data : list whitelist_entry) : option (list string) :=
  match data with
  | [] => Some []
  | e :: data' =>
      match entry_address e, entry_addresses data' with
      | Some a, Some l => Some (a :: l)
      | _, _ => None
      end
  end.

Definition set_whitelist (c : gset string) (t : Z) (st : state) : state :=
  {| grants := grants st; grantors := grantors st;
     _whitelistCache := Some c; _whitelistCacheTime := t;
     transfers := transfers st |}.

Definition fetchWhitelist (w : world) (st : state) : gset string * state :=
  let now := clock w in
  let fresh :=
    match _whitelistCache st with
    | Some c => if now - _whitelistCacheTime st <? WHITELIST_CACHE_TTL then Some c else None
    | None => None
    end in
  match fresh with
  | Some c => (c, st)
  | None =>
      match whitelist_fetch w ≫= entry_addresses with
      | Some l => let c' := list_to_set l in (c', set_whitelist c' now st)
      | None =>
          match _whitelistCache st with
          | Some c => (c, st)
          | None => (∅, st)
          end
      end
  end.

(** The fetch of the whitelist, or the reading of its entries, throws. *)
Definition fetch_failed (w : world) : Prop :=
  whitelist_fetch w ≫= entry_addresses = None.

(** The candidate address of a request body, first truthy of the configured
    field, [creator], [participant], [sender], [from], [address]. *)
Definition candidate_address (addressField : string) (b : gmap string string) : option string :=
  or_else (field b addressField)
  (or_else (field b "creator")
  (or_else (field b "participant")
  (or_else (field b "sender")
  (or_else (field b "from") (field b "address"))))).

(** [requireWhitelist(addressField)]: [inl] is the response that ends the
    request, [inr tt] is [next()]. *)
Definition requireWhitelist (addressField : string) (req : request) (w : world) (st : state)
  : (response + unit) * state :=
  match candidate_address addressField (body req) with
  | None => (inl (400, error_body "Address required"), st)
  | Some addr =>
      let '(whitelist, st') := fetchWhitelist w st in
      if decide (toLowerCase addr ∈ whitelist)
      then (inr tt, st')
      else (inl (403, error_body "Invite-only. Tag @owockibot on X to request access."), st')
  end.

(** *** POST /grants *)

Definition missing_fields_body : json :=
  JObj [ ("error", JStr "recipient and txHash required");
         ("example", JObj [ ("recipient", JStr "0x...");
                            ("amount", JStr "0.01");
                            ("reason", JStr "Great work on the docs");
                            ("txHash", JStr "0x...") ]);
         ("instructions", JObj [ ("step1", JStr ("Send ETH to treasury: " +:+ TREASURY_ADDRESS));
                                 ("step2", JStr "POST /grants with txHash and recipient") ]) ].

(** [Array.from(grants.values()).find(g => g.fundingTxHash?.toLowerCase() === txHash.toLowerCase())] *)
Definition find_by_funding_tx (txHash : string) (st : state) : option grant :=
  List.find (fun g => String.eqb (toLowerCase (fundingTxHash g)) (toLowerCase txHash))
            (Map_values (grants st)).

Definition isMock (req : request) : bool :=
  bool_decide (query req !! "mock" = Some "true").

Definition duplicate_body (grantId : string) : json :=
  JObj [ ("error", JStr "Transaction already used for grant");
         ("grantId", JStr grantId) ].

(** Everything before the [try] block: the response that ends the request,
    or [None] to go on. *)
Definition grants_precheck (req : request) (st : state) : option response :=
  match field (body req) "recipient", field (body req) "txHash" with
  | Some recipient, Some txHash =>
      if negb (isAddress recipient)
      then Some (400, error_body "Invalid recipient address")
      else
        match find_by_funding_tx txHash st with
        | Some existingGrant =>
            Some (400, duplicate_body (id existingGrant))
        | None => None
        end
  | _, _ => Some (400, missing_fields_body)
  end.

Definition opt_json (o : option string) : json :=
  match o with Some s => JStr s | None => JNull end.

(** Live mode: verify the funding transaction; yields [tx.value] and
    [tx.from]. *)
Definition verify_funding (w : world) : flow (Z * string) :=
  tx ← await (chain_tx w);
  match tx with
  | None => Reply (400, error_body "Transaction not found")
  | Some tx =>
      rc ← await (chain_receipt w);
      match rc with
      | None => Reply (400, error_body "Transaction failed or pending")
      | Some rc =>
          if negb (receipt_status rc =? 1)
          then Reply (400, error_body "Transaction failed or pending")
          else if negb (bool_decide (toLowerCase <$> tx_to tx = Some (toLowerCase TREASURY_ADDRESS)))
          then Reply (400, JObj [ ("error", JStr "Not sent to treasury");
                                  ("expected", JStr TREASURY_ADDRESS);
                                  ("got", opt_json (tx_to tx)) ])
          else Next (tx_value tx, tx_from tx)
      end
  end.

Definition parse_or_throw (amount : string) (parsed : option Z) : flow Z :=
  match parsed with
  | Some v => Next v
  | None => Raise (amount_error amount)
  end.

(** Mock mode: the amount and the sender come from the request. *)
Definition mock_funding (req : request) : flow (Z * string) :=
  fundingAmount ←
    match field (body req) "amount" with
    | Some amount => parse_or_throw amount (parseETH amount)
    | None => parse_or_throw "0.01" (Ethers.parseEther "0.01")
    end;
  Next (fundingAmount,
        match field (body req) "grantor" with
        | Some grantor => grantor
        | None => "0x" +:+ repeat_string "1" 40
        end).

Definition funding_of (req : request) (w : world) : flow (Z * string) :=
  if isMock req then mock_funding req else verify_funding w.

(** BigInt division truncates toward zero. *)
Definition fee_of (fundingAmount : Z) : Z := Z.quot (fundingAmount * FEE_PERCENT) 100.
Definition net_of (fundingAmount : Z) : Z := fundingAmount - fee_of fundingAmount.

Definition log_transfer (to : string) (value : Z) (st : state) : state :=
  {| grants := grants st; grantors := grantors st;
     _whitelistCache := _whitelistCache st; _whitelistCacheTime := _whitelistCacheTime st;
     transfers := transfers st ++ [(to, value)] |}.

(** [uuid.replace(/-/g, '')] *)
Fixpoint remove_dashes (s : string) : string :=
  match s with
  | EmptyString => EmptyString
  | String c s' => if Ascii.eqb c "-"%char then remove_dashes s' else String c (remove_dashes s')
  end.

(** Send [netAmount] to the recipient (live), or make up a hash (mock);
    yields the hash of the distribution transaction. *)
Definition distribute (mock : bool) (recipient : string) (netAmount : Z) (w : world) (st : state)
  : flow string * state :=
  if mock then (Next ("0xmock" +:+ remove_dashes (uuid_mock w)), st)
  else
    match wallet w with
    | Throw e => (Raise e, st)
    | Ok false => (Reply (500, error_body "Wallet not configured"), st)
    | Ok true => (await (send_result w), log_transfer recipient netAmount st)
    end.

Definition new_grant (req : request) (w : world) (recipient txHash : string)
    (fundingAmount : Z) (txFrom distributeTxHash : string) : grant :=
  {| id := uuid_id w;
     recipient := toLowerCase recipient;
     grantor := toLowerCase (match field (body req) "grantor" with Some g => g | None => txFrom end);
     reason := match field (body req) "reason" with Some r => r | None => "Direct grant" end;
     grossAmount := BigInt_toString fundingAmount;
     grossAmountFormatted := formatETH fundingAmount;
     fee := BigInt_toString (fee_of fundingAmount);
     feeFormatted := formatETH (fee_of fundingAmount);
     netAmount := BigInt_toString (net_of fundingAmount);
     netAmountFormatted := formatETH (net_of fundingAmount);
     fundingTxHash := txHash;
     distributionTxHash := distributeTxHash;
     status := "completed";
     mock := isMock req;
     createdAt := created_at w |}.

(** [grants.set(grant.id, grant)] followed by the update of the grantor's
    statistics. *)
Definition record_grant (g : grant) (fundingAmount : Z) (st : state) : state :=
  let stats :=
    match grantors st !! grantor g with
    | Some stats => stats
    | None => {| totalGrants := 0; totalAmount := 0 |}
    end in
  {| grants := Map_set (id g) g (grants st);
     grantors := <[ grantor g := {| totalGrants := totalGrants stats + 1;
                                    totalAmount := totalAmount stats + fundingAmount |} ]> (grantors st);
     _whitelistCache := _whitelistCache st; _whitelistCacheTime := _whitelistCacheTime st;
     transfers := transfers st |}.

Definition created_body (g : grant) : json :=
  JObj ([ ("success", JBool true); ("grant", grant_json g) ]
        ++ (if mock g then [("mock", JBool true)] else [])
        ++ [ ("basescanUrl", JStr ("https://basescan.org/tx/" +:+ distributionTxHash g)) ]).

(** The end of the [try] block, once the distribution hash is known. *)
Definition complete_grant (req : request) (w : world) (recipient txHash : string)
    (fundingAmount : Z) (txFrom distributeTxHash : string) (st : state) : response * state :=
  let g := new_grant req w recipient txHash fundingAmount txFrom distributeTxHash in
  ((201, created_body g), record_grant g fundingAmount st).

(** [catch (err)]: a thrown error becomes a 500 response. *)
Definition catch {A : Type} (m : flow A) (k : A -> response * state) (st : state) : response * state :=
  match m with
  | Next a => k a
  | Reply r => (r, st)
  | Raise e => ((500, error_body e), st)
  end.

(** The route handler of [POST /grants], after the middleware. *)
Definition post_grants_handler (req : request) (w : world) (st : state) : response * state :=
  match grants_precheck req st with
  | Some r => (r, st)
  | None =>
      match field (body req) "recipient", field (body req) "txHash" with
      | Some recipient, Some txHash =>
          catch (funding_of req w) (fun '(fundingAmount, txFrom) =>
            let '(sent, st') := distribute (isMock req) recipient (net_of fundingAmount) w st in
            catch sent (fun distributeTxHash =>
              complete_grant req w recipient txHash fundingAmount txFrom distributeTxHash st') st') st
      | _, _ => ((400, missing_fields_body), st)
      end
  end.

(** [app.post('/grants', requireWhitelist(), handler)] *)
Definition post_grants (req : request) (w : world) (st : state) : response * state :=
  match requireWhitelist "address" req w st with
  | (inl r, st') => (r, st')
  | (inr _, st') => post_grants_handler req w st'
  end.

(** *** GET /grants, GET /grants/:id, GET /grantors/:address *)

(** [array.sort((a, b) => b.createdAt - a.createdAt)]: the sort is stable, so
    records with equal time stamps keep their order. *)
Fixpoint insert_desc (g : grant) (sorted : list grant) : list grant :=
  match sorted with
  | [] => [g]
  | h :: t => if createdAt h <=? createdAt g then g :: sorted else h :: insert_desc g t
  end.

Fixpoint sort_desc (l : list grant) : list grant :=
  match l with
  | [] => []
  | g :: l' => insert_desc g (sort_desc l')
  end.

Definition grants_body (results : list grant) : json :=
  JObj [ ("grants", JArr (map grant_json results));
         ("total", JNum (Z.of_nat (length results))) ].

(** The listing before [limit] is applied: the two filters, then the sort. *)
Definition select_grants (req : request) (st : state) : list grant :=
  let results := Map_values (grants st) in
  let results :=
    match field (query req) "recipient" with
    | Some recipient_q => List.filter (fun g => String.eqb (recipient g) (toLowerCase recipient_q)) results
    | None => results
    end in
  let results :=
    match field (query req) "grantor" with
    | Some grantor_q => List.filter (fun g => String.eqb (grantor g) (toLowerCase grantor_q)) results
    | None => results
    end in
  sort_desc results.

Definition list_grants (req : request) (st : state) : list grant :=
  let results := select_grants req st in
  match field (query req) "limit" with
  | Some limit => slice0 results (parseInt limit)
  | None => results
  end.

Definition get_grants (req : request) (st : state) : response :=
  (200, grants_body (list_grants req st)).

Definition get_grant (grantId : string) (st : state) : response :=
  match Map_get grantId (grants st) with
  | None => (404, error_body "Grant not found")
  | Some g => (200, grant_json g)
  end.

Definition zero_stats_body (address : string) : json :=
  JObj [ ("address", JStr (toLowerCase address));
         ("totalGrants", JNum 0);
         ("totalAmount", JStr "0");
         ("totalAmountFormatted", JStr "0 ETH") ].

Definition get_grantor (address : string) (st : state) : response :=
  if negb (isAddress address) then (400, error_body "Invalid address")
  else
    match grantors st !! toLowerCase address with
    | None => (200, zero_stats_body address)
    | Some stats =>
        let grantorGrants :=
          sort_desc (List.filter (fun g => String.eqb (grantor g) (toLowerCase address))
                                 (Map_values (grants st))) in
        (200, JObj [ ("address", JStr (toLowerCase address));
                     ("totalGrants", JNum (totalGrants stats));
                     ("totalAmount", JStr (BigInt_toString (totalAmount stats)));
                     ("totalAmountFormatted", JStr (formatETH (totalAmount stats)));
                     ("recentGrants", JArr (map grant_json (slice0 grantorGrants (Some 10)))) ])
    end.

(** *** POST /test/e2e *)

Definition e2e_missing_body : json :=
  JObj [ ("error", JStr "txHash required");
         ("instructions", JObj [ ("step1", JStr ("Send ETH to treasury: " +:+ TREASURY_ADDRESS));
                                 ("step2", JStr "POST /test/e2e with { txHash, recipient }") ]) ].

Definition e2e_error (status : Z) (msg : string) (steps : list json) : response :=
  (status, JObj [ ("error", JStr msg); ("steps", JArr steps) ]).

Definition e2e_grant (w : world) (targetRecipient txHash : string) (tx : transaction)
    (distributeTxHash : string) : grant :=
  let fundingAmount := tx_value tx in
  {| id := uuid_id w;
     recipient := toLowerCase targetRecipient;
     grantor := toLowerCase (tx_from tx);
     reason := "E2E Test Grant";
     grossAmount := BigInt_toString fundingAmount;
     grossAmountFormatted := formatETH fundingAmount;
     fee := BigInt_toString (fee_of fundingAmount);
     feeFormatted := formatETH (fee_of fundingAmount);
     netAmount := BigInt_toString (net_of fundingAmount);
     netAmountFormatted := formatETH (net_of fundingAmount);
     fundingTxHash := txHash;
     distributionTxHash := distributeTxHash;
     status := "completed";
     mock := false;
     createdAt := created_at w |}.

(** [grants.set(grant.id, grant)]; this route does not touch [grantors]. *)
Definition store_grant (g : grant) (st : state) : state :=
  {| grants := Map_set (id g) g (grants st);
     grantors := grantors st;
     _whitelistCache := _whitelistCache st; _whitelistCacheTime := _whitelistCacheTime st;
     transfers := transfers st |}.

Definition post_test_e2e (req : request) (w : world) (st : state) : response * state :=
  match field (body req) "txHash" with
  | None => ((400, e2e_missing_body), st)
  | Some txHash =>
      let targetRecipient :=
        match field (body req) "recipient" with Some r => r | None => TREASURY_ADDRESS end in
      let step1 := JObj [ ("step", JNum 1); ("action", JStr "Verifying transaction...") ] in
      match chain_tx w with
      | Throw e => (e2e_error 500 e [step1], st)
      | Ok None => (e2e_error 400 "Transaction not found" [step1], st)
      | Ok (Some tx) =>
          match chain_receipt w with
          | Throw e => (e2e_error 500 e [step1], st)
          | Ok None => (e2e_error 400 "Transaction failed or pending" [step1], st)
          | Ok (Some rc) =>
              if negb (receipt_status rc =? 1)
              then (e2e_error 400 "Transaction failed or pending" [step1], st)
              else if negb (bool_decide (toLowerCase <$> tx_to tx = Some (toLowerCase TREASURY_ADDRESS)))
              then (e2e_error 400 "Not sent to treasury" [step1], st)
              else
                let fundingAmount := tx_value tx in
                let verified := JObj [ ("step", JNum 1); ("status", JStr "verified");
                                       ("from", JStr (tx_from tx));
                                       ("amount", JStr (formatETH fundingAmount)) ] in
                let fee := fee_of fundingAmount in
                let netAmount := net_of fundingAmount in
                let step2 := JObj [ ("step", JNum 2); ("action", JStr "Sending grant...") ] in
                let steps := [step1; verified; step2] in
                match wallet w with
                | Throw e => (e2e_error 500 e steps, st)
                | Ok false => (e2e_error 500 "Wallet not configured" steps, st)
                | Ok true =>
                    let st1 := log_transfer targetRecipient netAmount st in
                    match send_result w with
                    | Throw e => (e2e_error 500 e steps, st1)
                    | Ok hash =>
                        let g := e2e_grant w targetRecipient txHash tx hash in
                        let sent := JObj [ ("step", JNum 2); ("status", JStr "sent");
                                           ("txHash", JStr hash);
                                           ("recipient", JStr targetRecipient);
                                           ("netAmount", JStr (formatETH netAmount)) ] in
                        ((200, JObj [ ("success", JBool true);
                                      ("message", JStr "E2E test completed!");
                                      ("grant", grant_json g);
                                      ("steps", JArr (steps ++ [sent]));
                                      ("summary", JObj [
                                         ("funded", JStr (formatETH fundingAmount));
                                         ("fee", JStr (formatETH fee +:+ " (5%)"));
                                         ("sent", JStr (formatETH netAmount));
                                         ("recipient", JStr targetRecipient);
                                         ("txHash", JStr hash);
                                         ("basescanUrl", JStr ("https://basescan.org/tx/" +:+ hash)) ]) ]),
                         store_grant g st1)
                    end
                end
          end
      end
  end.

(** *** GET /stats *)

(** [list.reduce((sum, g) => sum + BigInt(f(g)), 0n)]; [None] when [BigInt]
    throws. *)
Fixpoint sum_amounts (f : grant -> string) (l : list grant) (sum : Z) : option Z :=
  match l with
  | [] => Some sum
  | g :: l' =>
      match BigInt (f g) with
      | Some v => sum_amounts f l' (sum + v)
      | None => None
      end
  end.

(** The answer of the framework to an exception that escapes a handler. *)
Definition uncaught : response := (500, JNull).

Definition stats_body (count : nat) (granted fees : Z) (recipients grantors_ : nat) : json :=
  JObj [ ("totalGrants", JNum (Z.of_nat count));
         ("totalGranted", JStr (formatETH granted));
         ("totalFees", JStr (formatETH fees));
         ("uniqueRecipients", JNum (Z.of_nat recipients));
         ("uniqueGrantors", JNum (Z.of_nat grantors_)) ].

Definition get_stats (st : state) : response :=
  let allGrants := Map_values (grants st) in
  match sum_amounts netAmount allGrants 0 with
  | None => uncaught
  | Some totalGranted =>
      match sum_amounts fee allGrants 0 with
      | None => uncaught
      | Some totalFees =>
          (200, stats_body (length allGrants) totalGranted totalFees
                           (size (list_to_set (map recipient allGrants) : gset string))
                           (size (grantors st)))
      end
  end.

(** *** Interleaved requests

    Node runs a handler without interruption up to its next [await] on the
    network.  A request to [POST /grants] in flight is at one of these points;
    in mock mode the handler has no such [await] and runs in one piece. *)

Inductive thread : Type :=
  | Arrived (req : request) (w : world)
  | AwaitFunding (req : request) (w : world) (recipient txHash : string)
  | AwaitSend (req : request) (w : world) (recipient txHash : string)
              (fundingAmount : Z) (txFrom : string)
  | Finished (r : response).

(** The handler from the answer of the chain lookups up to the submission of
    the transfer. *)
Definition after_funding (req : request) (w : world) (recipient txHash : string) (st : state)
  : thread * state :=
  match funding_of req w with
  | Reply r => (Finished r, st)
  | Raise e => (Finished (500, error_body e), st)
  | Next (fundingAmount, txFrom) =>
      if isMock req then
        let '(sent, st') := distribute true recipient (net_of fundingAmount) w st in
        let '(r, st'') := catch sent (fun distributeTxHash =>
            complete_grant req w recipient txHash fundingAmount txFrom distributeTxHash st') st' in
        (Finished r, st'')
      else
        match wallet w with
        | Throw e => (Finished (500, error_body e), st)
        | Ok false => (Finished (500, error_body "Wallet not configured"), st)
        | Ok true =>
            (AwaitSend req w recipient txHash fundingAmount txFrom,
             log_transfer recipient (net_of fundingAmount) st)
        end
  end.

Definition thread_step (t : thread) (st : state) : thread * state :=
  match t with
  | Arrived req w =>
      match requireWhitelist "address" req w st with
      | (inl r, st') => (Finished r, st')
      | (inr _, st') =>
          match grants_precheck req st' with
          | Some r => (Finished r, st')
          | None =>
              match field (body req) "recipient", field (body req) "txHash" with
              | Some recipient, Some txHash =>
                  if isMock req then after_funding req w recipient txHash st'
                  else (AwaitFunding req w recipient txHash, st')
              | _, _ => (Finished (400, missing_fields_body), st')
              end
          end
      end
  | AwaitFunding req w recipient txHash => after_funding req w recipient txHash st
  | AwaitSend req w recipient txHash fundingAmount txFrom =>
      let '(r, st') := catch (await (send_result w)) (fun distributeTxHash =>
          complete_grant req w recipient txHash fundingAmount txFrom distributeTxHash st) st in
      (Finished r, st')
  | Finished r => (Finished r, st)
  end.

(** One scheduling decision: the request at position [i] runs to its next
    [await]. *)
Definition schedule_step (i : nat) (cfg : state * list thread) : state * list thread :=
  let '(st, pool) := cfg in
  match pool !! i with
  | Some t => let '(t', st') := thread_step t st in (st', <[ i := t' ]> pool)
  | None => cfg
  end.

Definition run_schedule (sched : list nat) (cfg : state * list thread) : state * list thread :=
  fold_left (fun c i => schedule_step i c) sched cfg.

(** *** Ledger properties *)

(** The stored records funded by [txHash], compared as the duplicate check
    compares. *)
Definition same_funding_tx (txHash : string) (g : grant) : bool :=
  String.eqb (toLowerCase (fundingTxHash g)) (toLowerCase txHash).

Definition funded_by (txHash : string) (st : state) : list grant :=
  List.filter (same_funding_tx txHash) (Map_values (grants st)).

(** No two stored records share a funding transaction hash. *)
Definition unique_funding (st : state) : Prop :=
  NoDup (map (fun g => toLowerCase (fundingTxHash g)) (Map_values (grants st))).



(** The keys of [grantors] are exactly the grantors of the stored records. *)
Definition stats_cover (st : state) : Prop :=
  dom (grantors st) = (list_to_set (map grantor (Map_values (grants st))) : gset string).

(** Every key of [grantors] is the grantor of a stored record. *)
Definition stats_sound (st : state) : Prop :=
  dom (grantors st) ⊆ (list_to_set (map grantor (Map_values (grants st))) : gset string).

(** The number read back from a stored amount. *)
Definition amount_value (s : string) : Z := default 0 (BigInt s).


(** A JSON object's property. *)
Fixpoint json_get (k : string) (fields : list (string * json)) : option json :=
  match fields with
  | [] => None
  | (k', v) :: fields' => if String.eqb k' k then Some v else json_get k fields'
  end.

Definition property (k : string) (r : response) : option json :=
  match snd r with
  | JObj fields => json_get k fields
  | _ => None
  end.




(** Requests that change the ledger. *)
Inductive operation : Type :=
  | PostGrants (req : request) (w : world)
  | PostTestE2E (req : request) (w : world).

Definition apply_operation (o : operation) (st : state) : response * state :=
  match o with
  | PostGrants req w => post_grants req w st
  | PostTestE2E req w => post_test_e2e req w st
  end.

Definition run_operations (ops : list operation) (st : state) : state :=
  fold_left (fun s o => snd (apply_operation o s)) ops st.

(** [uuidv4] returns an identifier that is not in use. *)
Definition fresh_id (o : operation) (st : state) : Prop :=
  match o with
  | PostGrants _ w | PostTestE2E _ w => Map_get (uuid_id w) (grants st) = None
  end.

(** Along a run, every identifier drawn is fresh. *)
Fixpoint fresh_ids (ops : list operation) (st : state) : Prop :=
  match ops with
  | [] => True
  | o :: ops' => fresh_id o st /\ fresh_ids ops' (snd (apply_operation o st))
  end.

(** Runs made of requests to [POST /grants] only. *)
Definition grants_only (ops : list operation) : Prop :=
  Forall (fun o => match o with PostGrants _ _ => True | PostTestE2E _ _ => False end) ops.

(** The gross amount a request works with, when it gets that far. *)
Definition funding_amount (o : operation) : option Z :=
  match o with
  | PostGrants req w =>
      match funding_of req w with
      | Next (fundingAmount, _) => Some fundingAmount
      | _ => None
      end
  | PostTestE2E req w =>
      match chain_tx w with
      | Ok (Some tx) => Some (tx_value tx)
      | _ => None
      end
  end.

(** The status with which each route reports a recorded grant. *)
Definition success_status (o : operation) : Z :=
  match o with
  | PostGrants _ _ => 201
  | PostTestE2E _ _ => 200
  end.

Definition operation_id (o : operation) : string :=
  match o with
  | PostGrants _ w | PostTestE2E _ w => uuid_id w
  end.

End Server.

(** ** Sample collaborators, requests and answers *)

Definition hex_digit (c : ascii) : bool :=
  match JS.radix_digit 16 c with Some _ => true | None => false end.

Fixpoint all_hex (s : string) : bool :=
  match s with
  | EmptyString => true
  | String c s' => hex_digit c && all_hex s'
  end.

(** Addresses written as [0x] and forty hexadecimal digits. *)
Definition hex_address (s : string) : bool :=
  String.prefix "0x" s && (String.length s =? 42)%nat && all_hex (String.substring 2 40 s).

#[global] Instance sample_lib : Collaborators := {|
  isAddress := hex_address;
  exponential := fun _ _ => "1e+21";
  amount_error := fun s => "invalid amount " +:+ s
|}.

(** Hashes of funding transactions; [tx_F00D] is [tx_f00d] in upper case. *)
Definition tx_f00d : string := "0x" +:+ JS.repeat_string "f00d" 16.
Definition tx_F00D : string := "0x" +:+ JS.repeat_string "F00D" 16.
Definition tx_cafe : string := "0x" +:+ JS.repeat_string "cafe" 16.
Definition tx_beef : string := "0x" +:+ JS.repeat_string "beef" 16.

(** The hash the wallet returns for a transfer. *)
Definition sent_hash : string := "0x" +:+ JS.repeat_string "d157" 16.

(** Identifiers drawn by [uuidv4]. *)
Definition uuid_0 : string := "00000000-0000-4000-8000-000000000000".
Definition uuid_1 : string := "11111111-1111-4111-8111-111111111111".
Definition uuid_2 : string := "22222222-2222-4222-8222-222222222222".
Definition uuid_a : string := "aaaaaaaa-aaaa-4aaa-8aaa-aaaaaaaaaaaa".
Definition uuid_b : string := "bbbbbbbb-bbbb-4bbb-8bbb-bbbbbbbbbbbb".

Definition alice : string := "0x00000000000000000000000000000000000000A1".
Definition bob : string := "0x00000000000000000000000000000000000000B2".
Definition carol : string := "0x00000000000000000000000000000000000000c3".

Definition sample_tx (value : Z) : transaction :=
  {| tx_to := Some "0xCCD7200024A8B5708D381168EC2DB0DC587AF83F";
     tx_from := alice; tx_value := value |}.

(** Answers of a world where everything works: [alice] and [carol] are
    whitelisted, the funding transaction carries [value], the transfer goes
    through. *)
Definition sample_world (uuid : string) (time value : Z) : world :=
  {| clock := time;
     whitelist_fetch := Some [EntryObject (Some alice); EntryString carol];
     chain_tx := Ok (Some (sample_tx value));
     chain_receipt := Ok (Some {| receipt_status := 1 |});
     wallet := Ok true;
     send_result := Ok sent_hash;
     uuid_mock := uuid_0;
     uuid_id := uuid;
     created_at := time |}.

Definition sample_request (txHash : string) : request :=
  {| body := {[ "address" := alice; "recipient" := bob; "txHash" := txHash ]};
     query := ∅ |}.

Definition mock_request (txHash amount : string) : request :=
  {| body := {[ "address" := alice; "recipient" := bob; "txHash" := txHash;
                "amount" := amount ]};
     query := {[ "mock" := "true" ]} |}.

(** The same funding hash, but no recipient. *)
Definition request_without_recipient (txHash : string) : request :=
  {| body := {[ "address" := alice; "txHash" := txHash ]}; query := ∅ |}.

(** The ledger after one live grant funded by [tx_f00d]. *)
Definition one_grant : state :=
  snd (post_grants (sample_request tx_f00d) (sample_world uuid_1 1000 (10 ^ 16)) initial_state).

(** Two submissions of the funding hash [tx_f00d] in flight at once, and a
    schedule that lets each run to its next [await] in turn. *)
Definition racing_pool : list thread :=
  [ Arrived (sample_request tx_f00d) (sample_world uuid_a 1000 (10 ^ 16));
    Arrived (sample_request tx_f00d) (sample_world uuid_b 1001 (10 ^ 16)) ].

Definition alternating : list nat := [0; 1; 0; 1; 0; 1]%nat.

(** The funding hash of [one_grant] used again through [POST /test/e2e]. *)
Definition reuse_by_e2e : list operation :=
  [ PostGrants (sample_request tx_f00d) (sample_world uuid_1 1000 (10 ^ 16));
    PostTestE2E (sample_request tx_F00D) (sample_world uuid_2 2000 (10 ^ 16)) ].

(** The ledger after one mock grant of the given amount. *)
Definition one_mock_grant (amount : string) : state :=
  snd (post_grants (mock_request tx_beef amount) (sample_world uuid_1 1000 0) initial_state).

(** A world where the transfer is refused. *)
Definition broke_world : world :=
  {| clock := 2000;
     whitelist_fetch := Some [EntryObject (Some alice); EntryString carol];
     chain_tx := Ok (Some (sample_tx (10 ^ 16)));
     chain_receipt := Ok (Some {| receipt_status := 1 |});
     wallet := Ok true;
     send_result := Throw "insufficient funds for transfer";
     uuid_mock := uuid_0; uuid_id := uuid_2; created_at := 2000 |}.


(** The ledger after two live grants, funded by [tx_f00d] and then [tx_cafe]. *)
Definition two_grants : state :=
  run_operations
    [ PostGrants (sample_request tx_f00d) (sample_world uuid_1 1000 (10 ^ 16));
      PostGrants (sample_request tx_cafe) (sample_world uuid_2 2000 (2 * 10 ^ 16)) ]
    initial_state.


(** ** Further notions for the properties of the ledger *)

Section Notions.

Import JS.

Context {lib : Collaborators}.




(** Every record is stored under its own [id]. *)
Definition keys_are_ids (st : state) : Prop :=
  Forall (fun kv : string * grant => fst kv = id (snd kv)) (grants st).

(** What holds of every record the server builds. *)
Definition record_consistent (g : grant) : Prop :=
  toLowerCase (recipient g) = recipient g /\
  toLowerCase (grantor g) = grantor g /\
  status g = "completed" /\
  BigInt (grossAmount g) = Some (amount_value (grossAmount g)) /\
  fee g = BigInt_toString (fee_of (amount_value (grossAmount g))) /\
  netAmount g = BigInt_toString (net_of (amount_value (grossAmount g))) /\
  grossAmountFormatted g = formatETH (amount_value (grossAmount g)) /\
  feeFormatted g = formatETH (amount_value (fee g)) /\
  netAmountFormatted g = formatETH (amount_value (netAmount g)).

(** Whom an operation pays, when it pays. *)
Definition transfer_target (o : operation) : option string :=
  match o with
  | PostGrants req _ => field (body req) "recipient"
  | PostTestE2E req _ =>
      Some (match field (body req) "recipient" with Some r => r | None => TREASURY_ADDRESS end)
  end.

(** Two worlds that differ at most in what the chain and the wallet answer. *)
Definition same_local_answers (w w' : world) : Prop :=
  clock w = clock w' /\ whitelist_fetch w = whitelist_fetch w' /\
  uuid_mock w = uuid_mock w' /\ uuid_id w = uuid_id w' /\ created_at w = created_at w'.


(** Requests in a pool that are mock requests on arrival, or done. *)
Definition mock_or_finished (t : thread) : Prop :=
  match t with
  | Arrived req _ => isMock req = true
  | Finished _ => True
  | _ => False
  end.

(** No two records are stored under one key. *)
Definition ids_unique (st : state) : Prop := NoDup (map fst (grants st)).

(** The chain confirms [tx] as a successful payment to the treasury: what
    both routes check before money moves. *)
Definition funding_verified (w : world) (tx : transaction) : Prop :=
  chain_tx w = Ok (Some tx) /\
  (exists rc, chain_receipt w = Ok (Some rc) /\ receipt_status rc = 1) /\
  toLowerCase <$> tx_to tx = Some (toLowerCase TREASURY_ADDRESS).

(** The whitelist cache is absent, or older than its time to live. *)
Definition cache_expired (w : world) (st : state) : Prop :=
  match _whitelistCache st with
  | Some _ => WHITELIST_CACHE_TTL <= clock w - _whitelistCacheTime st
  | None => True
  end.


(** An amount of [k] millionths of an ether as [formatETH] prints it. *)
Definition micro_text (k : Z) : string :=
  (nat_toString (k / 10 ^ 6) +:+ String "." (fixed_digits 6 k "")) +:+ " ETH".

(** The operation is a request in mock mode. *)
Definition is_mock_operation (o : operation) : bool :=
  match o with
  | PostGrants req _ => isMock req
  | PostTestE2E _ _ => false
  end.

(** The world an operation runs in. *)
Definition operation_world (o : operation) : world :=
  match o with
  | PostGrants _ w | PostTestE2E _ w => w
  end.


(** The request is stopped before the [try] block of [POST /grants]: by the
    gate, or by the checks of its fields and of the funding hash. *)
Definition stopped_early (req : request) (w : world) (st : state) : Prop :=
  match requireWhitelist "address" req w st with
  | (inl _, _) => True
  | (inr _, st') => grants_precheck req st' <> None
  end.

End Notions.

(** ** Further sample requests and answers *)

(** The two live grants of [two_grants], one request each. *)
Definition first_live : operation :=
  PostGrants (sample_request tx_f00d) (sample_world uuid_1 1000 (10 ^ 16)).

Definition second_live : operation :=
  PostGrants (sample_request tx_cafe) (sample_world uuid_2 2000 (2 * 10 ^ 16)).

(** The funding hash of [first_live] sent to [POST /test/e2e]. *)
Definition e2e_again : operation :=
  PostTestE2E (sample_request tx_F00D) (sample_world uuid_2 2000 (10 ^ 16)).

(** A world where the chain and the wallet are out of reach; everything
    else is as in [sample_world]. *)
Definition chainless_world (uuid : string) (time : Z) : world :=
  {| clock := time;
     whitelist_fetch := Some [EntryObject (Some alice); EntryString carol];
     chain_tx := Throw "network error";
     chain_receipt := Throw "network error";
     wallet := Ok false;
     send_result := Throw "network error";
     uuid_mock := uuid_0;
     uuid_id := uuid;
     created_at := time |}.

(** Two mock requests for one funding hash, in flight at once. *)
Definition mock_pool : list thread :=
  [ Arrived (mock_request tx_beef "1.5") (sample_world uuid_a 1000 0);
    Arrived (mock_request tx_beef "2.5 ETH") (sample_world uuid_b 1001 0) ].

(** The ledger once the first request of [racing_pool] has passed the gate:
    the whitelist is cached, nothing else has happened. *)
Definition gate_passed : state :=
  snd (thread_step (Arrived (sample_request tx_f00d) (sample_world uuid_a 1000 (10 ^ 16)))
                   initial_state).

(** A world met four minutes after [sample_world uuid_1 1000], where the
    whitelist has meanwhile lost [alice]. *)
Definition later_world (time : Z) : world :=
  {| clock := time;
     whitelist_fetch := Some [EntryString carol];
     chain_tx := Ok (Some (sample_tx (10 ^ 16)));
     chain_receipt := Ok (Some {| receipt_status := 1 |});
     wallet := Ok true;
     send_result := Ok sent_hash;
     uuid_mock := uuid_0; uuid_id := uuid_2; created_at := time |}.

(** A world whose whitelist document has an entry without an address. *)
Definition malformed_world : world :=
  {| clock := 2000;
     whitelist_fetch := Some [EntryObject (Some alice); EntryObject None];
     chain_tx := Ok (Some (sample_tx (10 ^ 16)));
     chain_receipt := Ok (Some {| receipt_status := 1 |});
     wallet := Ok true;
     send_result := Ok sent_hash;
     uuid_mock := uuid_0; uuid_id := uuid_2; created_at := 2000 |}.

(** [GET /grants?limit=-1] and [GET /grants?limit=all]. *)
Definition negative_limit_query : request :=
  {| body := ∅; query := {[ "limit" := "-1" ]} |}.

Definition unreadable_limit_query : request :=
  {| body := ∅; query := {[ "limit" := "all" ]} |}.

(** * Properties *)

(** ** Strings and numbers *)

Section Primitives.

Import JS Ethers.

#[local] Arguments String.append !_ _ / : simpl nomatch.

Lemma lower_ascii_idem (c : ascii) : lower_ascii (lower_ascii c) = lower_ascii c.
Proof. destruct c as [[] [] [] [] [] [] [] []]; reflexivity. Qed.

Lemma toLowerCase_idem (s : string) : toLowerCase (toLowerCase s) = toLowerCase s.
Proof.
  induction s as [|c s IH]; simpl; [reflexivity|].
  now rewrite lower_ascii_idem, IH.
Qed.

Lemma digit_val_char (d : Z) : 0 <= d < 10 -> digit_val (digit_char d) = Some d.
Proof.
  intros H.
  assert (d = 0 \/ d = 1 \/ d = 2 \/ d = 3 \/ d = 4 \/ d = 5 \/ d = 6 \/ d = 7 \/ d = 8 \/ d = 9)
    as Hd by lia.
  repeat (destruct Hd as [-> | Hd]; [reflexivity|]). now subst.
Qed.

Lemma is_digit_char (d : Z) : 0 <= d < 10 -> is_digit (digit_char d) = true.
Proof. intros H. unfold is_digit. now rewrite digit_val_char. Qed.

(** A decimal digit is no white space, sign, point or radix letter. *)
Lemma is_digit_plain (c : ascii) :
  is_digit c = true ->
  is_space c = false /\ Ascii.eqb c "-" = false /\ Ascii.eqb c "+" = false /\
  Ascii.eqb c "." = false /\ Ascii.eqb c " " = false /\
  Ascii.eqb (lower_ascii c) "x" = false /\
  Ascii.eqb (lower_ascii c) "o" = false /\ Ascii.eqb (lower_ascii c) "b" = false.
Proof.
  destruct c as [[] [] [] [] [] [] [] []]; vm_compute; intros H;
    first [discriminate H | repeat split].
Qed.

Lemma append_nil_r (s : string) : s +:+ "" = s.
Proof. induction s; simpl; congruence. Qed.

Lemma append_assoc (s t u : string) : (s +:+ t) +:+ u = s +:+ (t +:+ u).
Proof. induction s; simpl; congruence. Qed.

Lemma length_append (s t : string) :
  String.length (s +:+ t) = (String.length s + String.length t)%nat.
Proof. induction s; simpl; congruence. Qed.

Lemma parse_digits_app (s t : string) (a : Z) :
  parse_digits (s +:+ t) a = parse_digits s a ≫= parse_digits t.
Proof.
  revert a. induction s as [|c s IH]; intros a; simpl; [reflexivity|].
  destruct (digit_val c); [apply IH | reflexivity].
Qed.

Lemma all_digits_app (s t : string) :
  all_digits (s +:+ t) = all_digits s && all_digits t.
Proof.
  induction s as [|c s IH]; simpl; [reflexivity|].
  rewrite IH. now rewrite andb_assoc.
Qed.

(** [push_digits] writes the decimal digits of [n]: reading them back gives
    [n], whatever was read before. *)
Lemma push_digits_spec (f : nat) (n : Z) (acc : string) :
  0 <= n < 10 * 2 ^ Z.of_nat f ->
  exists ds, push_digits f n acc = ds +:+ acc /\ nonempty ds = true /\
    all_digits ds = true /\
    forall a, parse_digits ds a = Some (a * 10 ^ Z.of_nat (String.length ds) + n).
Proof.
  revert n acc. induction f as [|f IH]; intros n acc Hn.
  - exists (String (digit_char (n mod 10)) ""). simpl in *.
    rewrite Z.mod_small by lia.
    rewrite is_digit_char, digit_val_char by lia.
    repeat split. intros a. f_equal. lia.
  - cbn [push_digits]. destruct (n <? 10) eqn:E.
    + apply Z.ltb_lt in E.
      exists (String (digit_char (n mod 10)) ""). simpl.
      rewrite Z.mod_small by lia.
      rewrite is_digit_char, digit_val_char by lia.
      repeat split. intros a. f_equal. lia.
    + apply Z.ltb_ge in E.
      assert (Hpow : 2 ^ Z.of_nat (S f) = 2 * 2 ^ Z.of_nat f).
      { rewrite Nat2Z.inj_succ, Z.pow_succ_r by lia. reflexivity. }
      assert (Hq : 0 <= n / 10 < 10 * 2 ^ Z.of_nat f).
      { split; [apply Z.div_pos; lia|].
        apply Z.div_lt_upper_bound; [lia|].
        assert (0 < 2 ^ Z.of_nat f) by (apply Z.pow_pos_nonneg; lia). lia. }
      destruct (IH (n / 10) (String (digit_char (n mod 10)) acc) Hq)
        as (ds & Hpush & Hne & Hall & Hparse).
      exists (ds +:+ String (digit_char (n mod 10)) "").
      assert (Hm : 0 <= n mod 10 < 10) by (apply Z.mod_pos_bound; lia).
      repeat split.
      * rewrite Hpush, append_assoc. reflexivity.
      * destruct ds; [discriminate|reflexivity].
      * rewrite all_digits_app, Hall. simpl. now rewrite is_digit_char.
      * intros a. rewrite parse_digits_app, Hparse. simpl.
        rewrite digit_val_char by lia. f_equal.
        rewrite length_append. simpl String.length.
        rewrite Nat2Z.inj_add, Z.pow_add_r by lia.
        change (10 ^ Z.of_nat 1) with 10.
        pose proof (Z.div_mod n 10 ltac:(lia)). lia.
Qed.

Lemma nat_toString_spec (n : Z) :
  0 <= n ->
  nonempty (nat_toString n) = true /\ all_digits (nat_toString n) = true /\
  forall a, parse_digits (nat_toString n) a
            = Some (a * 10 ^ Z.of_nat (String.length (nat_toString n)) + n).
Proof.
  intros Hn. unfold nat_toString.
  assert (Hb : 0 <= n < 10 * 2 ^ Z.of_nat (Z.to_nat (Z.log2 n))).
  { split; [lia|]. rewrite Z2Nat.id by apply Z.log2_nonneg.
    destruct (Z.eq_dec n 0) as [->|Hnz]; [reflexivity|].
    pose proof (Z.log2_spec n ltac:(lia)) as [_ Hu].
    rewrite Z.pow_succ_r in Hu by apply Z.log2_nonneg. lia. }
  destruct (push_digits_spec _ n "" Hb) as (ds & -> & H1 & H2 & H3).
  rewrite append_nil_r. auto.
Qed.

Lemma trimEnd_digits (s : string) : all_digits s = true -> trimEnd s = s.
Proof.
  induction s as [|c s IH]; simpl; [reflexivity|].
  intros [Hc Hs]%andb_prop. rewrite (IH Hs).
  destruct s; [|reflexivity].
  destruct (is_digit_plain c Hc) as [-> _]. reflexivity.
Qed.

Lemma trim_digits (s : string) : all_digits s = true -> trim s = s.
Proof.
  intros H. unfold trim.
  destruct s as [|c s]; [reflexivity|]. simpl in H |- *.
  apply andb_prop in H as [Hc Hs].
  destruct (is_digit_plain c Hc) as [-> _].
  apply (trimEnd_digits (String c s)). simpl. now rewrite Hc.
Qed.

Lemma BigInt_digits (s : string) :
  nonempty s = true -> all_digits s = true -> BigInt s = parse_digits s 0.
Proof.
  intros Hne Hall. unfold BigInt. rewrite (trim_digits s Hall).
  destruct s as [|a t]; [discriminate|].
  simpl in Hall. apply andb_prop in Hall as [Ha Ht].
  destruct (is_digit_plain a Ha) as (_ & -> & -> & _).
  destruct t as [|c t']; [reflexivity|].
  simpl in Ht. apply andb_prop in Ht as [Hc _].
  destruct (is_digit_plain c Hc) as (_ & _ & _ & _ & _ & -> & -> & ->).
  now rewrite !andb_false_r.
Qed.

(** Reading back the decimal string of a BigInt gives the BigInt. *)
Lemma BigInt_toString_roundtrip (z : Z) : BigInt (BigInt_toString z) = Some z.
Proof.
  unfold BigInt_toString. destruct (z <? 0) eqn:E.
  - apply Z.ltb_lt in E.
    destruct (nat_toString_spec (- z) ltac:(lia)) as (Hne & Hall & Hparse).
    unfold BigInt, trim. cbn [trimStart]. change (is_space "-") with false. cbv iota.
    assert (Ht : trimEnd (String "-" (nat_toString (- z))) = String "-" (nat_toString (- z))).
    { cbn [trimEnd]. rewrite (trimEnd_digits _ Hall).
      destruct (nat_toString (- z)); [discriminate|reflexivity]. }
    rewrite Ht. change (Ascii.eqb "-" "-") with true. cbv iota.
    rewrite Hne, Hparse. simpl. f_equal; lia.
  - apply Z.ltb_ge in E.
    destruct (nat_toString_spec z E) as (Hne & Hall & Hparse).
    rewrite (BigInt_digits _ Hne Hall), Hparse. f_equal; lia.
Qed.

Lemma amount_value_toString (z : Z) : amount_value (BigInt_toString z) = z.
Proof. unfold amount_value. now rewrite BigInt_toString_roundtrip. Qed.

(** *** Rounding *)

Lemma rne_error (n d : Z) : 0 < d -> - d <= 2 * rne n d * d - 2 * n <= d.
Proof.
  intros Hd. unfold rne.
  pose proof (Z.div_mod n d ltac:(lia)) as Hn.
  pose proof (Z.mod_pos_bound n d Hd) as Hr.
  destruct (2 * (n mod d) <? d) eqn:E1; [apply Z.ltb_lt in E1; nia|].
  apply Z.ltb_ge in E1.
  destruct (d <? 2 * (n mod d)) eqn:E2; [apply Z.ltb_lt in E2; nia|].
  apply Z.ltb_ge in E2.
  destruct (Z.even (n / d)); nia.
Qed.

(** The exponent chosen by [nearest_double] puts the scaled quotient
    between [2^52] and [2^53]. *)
Lemma nearest_double_binade (num den : Z) :
  0 < num -> 0 < den ->
  below_pow2 num den (snd (nearest_double num den) + 52) = false /\
  below_pow2 num den (snd (nearest_double num den) + 53) = true.
Proof.
  intros Hnum Hden. unfold nearest_double. cbn [snd].
  pose proof (Z.log2_spec num Hnum) as [Hn1 Hn2].
  pose proof (Z.log2_spec den Hden) as [Hd1 Hd2].
  pose proof (Z.log2_nonneg num) as Hln. pose proof (Z.log2_nonneg den) as Hld.
  set (ln := Z.log2 num) in *. set (ld := Z.log2 den) in *. set (l := ln - ld).
  assert (Hup : below_pow2 num den (l + 1) = true).
  { unfold below_pow2. destruct (0 <=? l + 1) eqn:E.
    - apply Z.leb_le in E. apply Z.ltb_lt.
      replace (Z.succ ln) with (l + 1 + ld) in Hn2 by lia.
      rewrite Z.pow_add_r in Hn2 by lia.
      assert (0 < 2 ^ (l + 1)) by (apply Z.pow_pos_nonneg; lia). nia.
    - apply Z.leb_gt in E. apply Z.ltb_lt.
      assert (Hp : 0 < 2 ^ (- (l + 1))) by (apply Z.pow_pos_nonneg; lia).
      assert (Heq : 2 ^ Z.succ ln * 2 ^ (- (l + 1)) = 2 ^ ld).
      { rewrite <- Z.pow_add_r by lia. f_equal. lia. }
      nia. }
  assert (Hlow : below_pow2 num den (l - 1) = false).
  { unfold below_pow2. destruct (0 <=? l - 1) eqn:E.
    - apply Z.leb_le in E. apply Z.ltb_ge.
      assert (Hp : 0 < 2 ^ (l - 1)) by (apply Z.pow_pos_nonneg; lia).
      assert (Heq : 2 ^ Z.succ ld * 2 ^ (l - 1) = 2 ^ ln).
      { rewrite <- Z.pow_add_r by lia. f_equal. lia. }
      nia.
    - apply Z.leb_gt in E. apply Z.ltb_ge.
      assert (Hp : 0 < 2 ^ (- (l - 1))) by (apply Z.pow_pos_nonneg; lia).
      assert (Heq : 2 ^ ln * 2 ^ (- (l - 1)) = 2 ^ Z.succ ld).
      { rewrite <- Z.pow_add_r by lia. f_equal. lia. }
      nia. }
  destruct (below_pow2 num den l) eqn:El.
  - replace (l - 1 - 52 + 52) with (l - 1) by lia.
    replace (l - 1 - 52 + 53) with l by lia. auto.
  - replace (l - 52 + 52) with l by lia.
    replace (l - 52 + 53) with (l + 1) by lia. auto.
Qed.

(** Doubles and roundings whose values are well known: [0.1], [0.01],
    [1/3], the tie [2^53 + 1], and [1.005] and [8.345] printed with two
    decimals. *)
Example double_one_tenth : nearest_double 1 10 = (7205759403792794, -56).
Proof. reflexivity. Qed.

Example double_one_hundredth : nearest_double 1 100 = (5764607523034235, -59).
Proof. reflexivity. Qed.

Example double_one_third : nearest_double 1 3 = (6004799503160661, -54).
Proof. reflexivity. Qed.

Example double_tie_to_even : nearest_double (2 ^ 53 + 1) 1 = (2 ^ 52, 1).
Proof. reflexivity. Qed.

Example toFixed_1_005 :
  toFixed (fun _ _ => "") 2
    (Num false (fst (nearest_double 1005 1000)) (snd (nearest_double 1005 1000))) = "1.00".
Proof. reflexivity. Qed.

Example toFixed_8_345 :
  toFixed (fun _ _ => "") 2
    (Num false (fst (nearest_double 8345 1000)) (snd (nearest_double 8345 1000))) = "8.35".
Proof. reflexivity. Qed.

(** A whole number [k] of millionths, below [2^52], survives the passage
    through the nearest double: rounding the double to six decimals gives
    [k] back. *)
Lemma nearest_double_micro (k : Z) :
  0 < k < 2 ^ 52 ->
  ge_1e21 (fst (nearest_double (k * 10 ^ 12) (10 ^ 18)))
          (snd (nearest_double (k * 10 ^ 12) (10 ^ 18))) = false /\
  round_half_up (fst (nearest_double (k * 10 ^ 12) (10 ^ 18)) * 10 ^ 6)
                (snd (nearest_double (k * 10 ^ 12) (10 ^ 18))) = k.
Proof.
  intros Hk. unfold nearest_double. cbn [fst snd].
  set (num := k * 10 ^ 12). set (den := 10 ^ 18).
  set (l := Z.log2 num - Z.log2 den).
  set (b := if below_pow2 num den l then l - 1 else l).
  assert (Hnum : 0 < num < den * 2 ^ 33) by (subst num den; lia).
  assert (Hb : b <= 32).
  { assert (Hl : l <= 33).
    { subst l. assert (Z.log2 num <= Z.log2 (den * 2 ^ 33)) by (apply Z.log2_le_mono; lia).
      replace (Z.log2 (den * 2 ^ 33)) with (Z.log2 den + 33) in H by (subst den; reflexivity).
      lia. }
    subst b. destruct (Z.eq_dec l 33) as [E|E].
    - rewrite E. unfold below_pow2. cbn [Z.leb Z.compare].
      destruct (num <? den * 2 ^ 33) eqn:Elt; [lia|]. apply Z.ltb_ge in Elt. lia.
    - destruct (below_pow2 num den l); lia. }
  set (e := b - 52). assert (He : e <= -20) by (subst e; lia).
  destruct (0 <=? e) eqn:E0; [apply Z.leb_le in E0; lia|]. clear E0.
  set (p := 2 ^ (- e)).
  assert (Hp : 2 ^ 20 <= p) by (subst p; apply Z.pow_le_mono_r; lia).
  set (m := rne (num * p) den).
  pose proof (rne_error (num * p) den ltac:(subst den; lia)) as Hm. fold m in Hm.
  assert (Hx : - 10 ^ 6 <= 2 * m * 10 ^ 6 - 2 * k * p <= 10 ^ 6).
  { subst num den. nia. }
  split.
  - unfold ge_1e21. destruct (0 <=? e) eqn:E0; [apply Z.leb_le in E0; lia|].
    fold p. apply Z.leb_gt. nia.
  - unfold round_half_up. destruct (0 <=? e) eqn:E0; [apply Z.leb_le in E0; lia|].
    fold p. replace (2 ^ (1 - e)) with (2 * p).
    2:{ subst p. replace (1 - e) with (Z.succ (- e)) by lia.
        rewrite Z.pow_succ_r by lia. reflexivity. }
    symmetry. apply (Z.div_unique _ _ k (2 * (m * 10 ^ 6) + p - 2 * p * k)); lia.
Qed.

(** *** Fixed-point text *)

Lemma fixed_digits_spec (k : nat) (n : Z) (acc : string) :
  exists ds, fixed_digits k n acc = ds +:+ acc /\ String.length ds = k /\
    all_digits ds = true /\
    forall a, parse_digits ds a = Some (a * 10 ^ Z.of_nat k + n mod 10 ^ Z.of_nat k).
Proof.
  revert n acc. induction k as [|k IH]; intros n acc.
  - exists "". repeat split. intros a. simpl. rewrite Z.mod_1_r. f_equal. lia.
  - cbn [fixed_digits].
    destruct (IH (n / 10) (String (digit_char (n mod 10)) acc)) as (ds & Hds & Hlen & Hall & Hp).
    assert (Hm : 0 <= n mod 10 < 10) by (apply Z.mod_pos_bound; lia).
    exists (ds +:+ String (digit_char (n mod 10)) ""). repeat split.
    + rewrite Hds, append_assoc. reflexivity.
    + rewrite length_append, Hlen. simpl. lia.
    + rewrite all_digits_app, Hall. simpl. now rewrite is_digit_char.
    + intros a. rewrite parse_digits_app, Hp. simpl.
      rewrite digit_val_char by lia. f_equal.
      rewrite Nat2Z.inj_succ, Z.pow_succ_r by lia.
      rewrite (Z.rem_mul_r n 10 (10 ^ Z.of_nat k)) by lia. lia.
Qed.

Lemma span_digits_point (W F : string) :
  all_digits W = true -> span_digits (W +:+ String "." F) = (W, String "." F).
Proof.
  induction W as [|c W IH]; simpl; [reflexivity|].
  intros [Hc HW]%andb_prop. now rewrite Hc, (IH HW).
Qed.

Lemma substring_none (n : nat) (s : string) : String.substring n 0 s = "".
Proof.
  revert s. induction n as [|n IH]; intros [|c s]; simpl; auto.
Qed.

Lemma parse_zeros (j : nat) (a : Z) :
  parse_digits (pad_right j "") a = Some (a * 10 ^ Z.of_nat j).
Proof.
  revert a. induction j as [|j IH]; intros a.
  - simpl. f_equal. lia.
  - cbn [pad_right parse_digits]. change (digit_val "0") with (Some 0). cbv beta iota.
    rewrite IH. f_equal. rewrite Nat2Z.inj_succ, Z.pow_succ_r by lia. lia.
Qed.

Lemma pad_right_short (j : nat) (F : string) :
  pad_right (String.length F + j) F = F +:+ pad_right j "".
Proof. induction F as [|c F IH]; simpl; [reflexivity|]. now rewrite IH. Qed.

(** [parseUnits] on a whole part, a point and at most [decimals] fraction
    digits. *)
Lemma parseUnits_fixed (W F : string) (w f : Z) (j : nat) :
  nonempty W = true -> all_digits W = true -> all_digits F = true ->
  parse_digits W 0 = Some w ->
  (forall a, parse_digits F a = Some (a * 10 ^ Z.of_nat (String.length F) + f)) ->
  parseUnits (W +:+ String "." F) (String.length F + j)
  = Some ((w * 10 ^ Z.of_nat (String.length F) + f) * 10 ^ Z.of_nat j).
Proof.
  intros Hne HW HF Hw Hf. unfold parseUnits.
  destruct W as [|c W]; [discriminate|].
  assert (Hc : is_digit c = true) by (simpl in HW; now apply andb_prop in HW).
  destruct (is_digit_plain c Hc) as (_ & Hminus & _).
  cbn [String.append]. rewrite Hminus.
  change (String c (W +:+ String "." F)) with (String c W +:+ String "." F).
  rewrite (span_digits_point _ _ HW).
  change (Ascii.eqb "." ".") with true. cbv iota.
  rewrite HF. cbn [negb].
  replace (String.length F - (String.length F + j))%nat with 0%nat by lia.
  rewrite substring_none. cbn [all_zero negb]. simpl String.length at 1.
  cbn [Nat.add Nat.eqb].
  rewrite pad_right_short, parse_digits_app, Hw. simpl mbind.
  rewrite parse_digits_app, Hf. simpl mbind. now rewrite parse_zeros.
Qed.

Lemma prefix_other (c : ascii) (pat s : string) :
  Ascii.eqb c " " = false -> String.prefix (String " " pat) (String c s) = false.
Proof.
  intros H. cbn [String.prefix].
  destruct (ascii_dec " " c) as [<-|]; [discriminate|reflexivity].
Qed.

(** Text without blanks is left alone by the removal of [" ETH"], except for
    that suffix, and by [trim]. *)
Lemma remove_first_suffix (X : string) :
  Forall (fun c => is_space c = false) (list_ascii_of_string X) ->
  remove_first " ETH" (X +:+ " ETH") = X.
Proof.
  induction X as [|c X IH]; intros H; [reflexivity|].
  apply Forall_cons in H as [Hc HX].
  change (String c X +:+ " ETH") with (String c (X +:+ " ETH")).
  cbn [remove_first]. rewrite prefix_other.
  - now rewrite (IH HX).
  - destruct c as [[] [] [] [] [] [] [] []]; try reflexivity; discriminate Hc.
Qed.

Lemma trimEnd_no_space (X : string) :
  Forall (fun c => is_space c = false) (list_ascii_of_string X) -> trimEnd X = X.
Proof.
  induction X as [|c X IH]; intros H; [reflexivity|].
  apply Forall_cons in H as [Hc HX]. cbn [trimEnd]. rewrite (IH HX), Hc.
  now destruct X.
Qed.

Lemma trim_no_space (X : string) :
  Forall (fun c => is_space c = false) (list_ascii_of_string X) -> trim X = X.
Proof.
  intros H. unfold trim. rewrite <- (trimEnd_no_space X H) at 2. f_equal.
  destruct X as [|c X]; [reflexivity|]. apply Forall_cons in H as [Hc _].
  simpl. now rewrite Hc.
Qed.

Lemma digits_no_space (s : string) :
  all_digits s = true -> Forall (fun c => is_space c = false) (list_ascii_of_string s).
Proof.
  induction s as [|c s IH]; simpl; [constructor|].
  intros [Hc Hs]%andb_prop. constructor; [|auto].
  now destruct (is_digit_plain c Hc).
Qed.

Lemma list_ascii_app (s t : string) :
  list_ascii_of_string (s +:+ t) = list_ascii_of_string s ++ list_ascii_of_string t.
Proof. induction s; simpl; congruence. Qed.

End Primitives.

(** ** The grant ledger *)

Section ServerProperties.

Import JS.

Context {lib : Collaborators}.

#[local] Arguments String.append !_ _ / : simpl nomatch.

(** *** What a request to POST /grants can do *)

Lemma fetchWhitelist_ledger (w : world) (st : state) :
  grants (snd (fetchWhitelist w st)) = grants st /\
  grantors (snd (fetchWhitelist w st)) = grantors st /\
  transfers (snd (fetchWhitelist w st)) = transfers st.
Proof.
  unfold fetchWhitelist. repeat case_match; simpl; auto.
Qed.

Lemma requireWhitelist_ledger (f : string) (req : request) (w : world) (st : state) :
  grants (snd (requireWhitelist f req w st)) = grants st /\
  grantors (snd (requireWhitelist f req w st)) = grantors st /\
  transfers (snd (requireWhitelist f req w st)) = transfers st.
Proof.
  unfold requireWhitelist.
  destruct (candidate_address f (body req)); [|simpl; auto].
  pose proof (fetchWhitelist_ledger w st) as H.
  destruct (fetchWhitelist w st) as [wl st1]. simpl in H.
  case_decide; simpl; auto.
Qed.

Lemma verify_funding_reply (w : world) (r : response) :
  verify_funding w = Reply r -> fst r = 400.
Proof.
  unfold verify_funding, await, mbind, flow_bind.
  repeat case_match; intros; simplify_eq; reflexivity.
Qed.

Lemma mock_funding_reply (req : request) (r : response) :
  mock_funding req <> Reply r.
Proof.
  unfold mock_funding, parse_or_throw, mbind, flow_bind.
  repeat case_match; congruence.
Qed.

Lemma funding_of_reply (req : request) (w : world) (r : response) :
  funding_of req w = Reply r -> fst r = 400.
Proof.
  unfold funding_of. destruct (isMock req).
  - intros H. now apply mock_funding_reply in H.
  - apply verify_funding_reply.
Qed.

Lemma distribute_ledger (m : bool) (to : string) (v : Z) (w : world) (st : state) :
  grants (snd (distribute m to v w st)) = grants st /\
  grantors (snd (distribute m to v w st)) = grantors st /\
  _whitelistCache (snd (distribute m to v w st)) = _whitelistCache st /\
  _whitelistCacheTime (snd (distribute m to v w st)) = _whitelistCacheTime st.
Proof. unfold distribute. repeat case_match; simpl; auto. Qed.

Lemma distribute_reply (m : bool) (to : string) (v : Z) (w : world) (st : state) (r : response) :
  fst (distribute m to v w st) = Reply r -> fst r = 500.
Proof.
  unfold distribute, await. repeat case_match; simpl; intros; simplify_eq; reflexivity.
Qed.

Lemma grants_precheck_status (req : request) (st : state) (r : response) :
  grants_precheck req st = Some r -> fst r = 400.
Proof.
  unfold grants_precheck. repeat case_match; intros; simplify_eq; reflexivity.
Qed.

(** The handler either answers with an error and leaves the two maps alone,
    or it went through every step and recorded one grant. *)
Lemma post_grants_handler_inv (req : request) (w : world) (st : state)
    (resp : response) (st' : state) :
  post_grants_handler req w st = (resp, st') ->
  ((fst resp = 400 \/ fst resp = 500) /\
   grants st' = grants st /\ grantors st' = grantors st) \/
  (exists recipient txHash fundingAmount txFrom hash st1,
      field (body req) "recipient" = Some recipient /\
      field (body req) "txHash" = Some txHash /\
      isAddress recipient = true /\
      find_by_funding_tx txHash st = None /\
      funding_of req w = Next (fundingAmount, txFrom) /\
      distribute (isMock req) recipient (net_of fundingAmount) w st = (Next hash, st1) /\
      let g := new_grant req w recipient txHash fundingAmount txFrom hash in
      resp = (201, created_body g) /\ st' = record_grant g fundingAmount st1).
Proof.
  unfold post_grants_handler.
  destruct (grants_precheck req st) as [r|] eqn:Hpre.
  { intros [= <- <-]. left. rewrite (grants_precheck_status _ _ _ Hpre). auto. }
  unfold grants_precheck in Hpre.
  destruct (field (body req) "recipient") as [recipient|]; [|discriminate].
  destruct (field (body req) "txHash") as [txHash|]; [|discriminate].
  destruct (isAddress recipient) eqn:Haddr; [|discriminate]. simpl in Hpre.
  destruct (find_by_funding_tx txHash st) eqn:Hfind; [discriminate|].
  destruct (funding_of req w) as [[fundingAmount txFrom]|r|e] eqn:Hfund; simpl.
  - pose proof (distribute_ledger (isMock req) recipient (net_of fundingAmount) w st) as Hl.
    pose proof (distribute_reply (isMock req) recipient (net_of fundingAmount) w st) as Hr.
    destruct (distribute (isMock req) recipient (net_of fundingAmount) w st)
      as [sent st1] eqn:Hd.
    simpl in Hl, Hr. destruct Hl as (Hg & Hs & _).
    destruct sent as [hash|r|e]; simpl.
    + intros [= <- <-]. right. exists recipient, txHash, fundingAmount, txFrom, hash, st1.
      repeat split; auto.
    + intros [= <- <-]. left. rewrite (Hr r eq_refl). auto.
    + intros [= <- <-]. left. simpl. auto.
  - intros [= <- <-]. left. rewrite (funding_of_reply _ _ _ Hfund). auto.
  - intros [= <- <-]. left. simpl. auto.
Qed.

Lemma post_grants_inv (req : request) (w : world) (st : state)
    (resp : response) (st' : state) :
  post_grants req w st = (resp, st') ->
  ((fst resp = 400 \/ fst resp = 403 \/ fst resp = 500) /\
   grants st' = grants st /\ grantors st' = grantors st) \/
  (exists st0 recipient txHash fundingAmount txFrom hash st1,
      requireWhitelist "address" req w st = (inr tt, st0) /\
      field (body req) "recipient" = Some recipient /\
      field (body req) "txHash" = Some txHash /\
      isAddress recipient = true /\
      find_by_funding_tx txHash st0 = None /\
      funding_of req w = Next (fundingAmount, txFrom) /\
      distribute (isMock req) recipient (net_of fundingAmount) w st0 = (Next hash, st1) /\
      let g := new_grant req w recipient txHash fundingAmount txFrom hash in
      resp = (201, created_body g) /\ st' = record_grant g fundingAmount st1).
Proof.
  unfold post_grants.
  pose proof (requireWhitelist_ledger "address" req w st) as (Hg & Hs & _).
  destruct (requireWhitelist "address" req w st) as [[r|[]] st0] eqn:Hgate; simpl in Hg, Hs.
  - intros [= <- <-]. left. split; [|auto].
    unfold requireWhitelist in Hgate.
    destruct (candidate_address "address" (body req)); [|simplify_eq; auto].
    destruct (fetchWhitelist w st). case_decide; simplify_eq. auto.
  - intros H. apply post_grants_handler_inv in H as [([H4|H5] & H1 & H2)|H].
    + left. rewrite H1, H2. auto.
    + left. rewrite H1, H2. auto.
    + right. destruct H as (recipient & txHash & fundingAmount & txFrom & hash & st1 & H).
      exists st0, recipient, txHash, fundingAmount, txFrom, hash, st1.
      cbv zeta in *. destruct H as (? & ? & ? & ? & ? & ? & ? & ?). repeat split; assumption.
Qed.

Lemma post_test_e2e_inv (req : request) (w : world) (st : state)
    (resp : response) (st' : state) :
  post_test_e2e req w st = (resp, st') ->
  ((fst resp = 400 \/ fst resp = 500) /\
   grants st' = grants st /\ grantors st' = grantors st) \/
  (exists txHash tx hash (steps : list json) (summary : json),
      field (body req) "txHash" = Some txHash /\
      chain_tx w = Ok (Some tx) /\
      send_result w = Ok hash /\
      let target := match field (body req) "recipient" with
                    | Some r => r | None => TREASURY_ADDRESS end in
      let g := e2e_grant w target txHash tx hash in
      resp = (200, JObj [ ("success", JBool true);
                          ("message", JStr "E2E test completed!");
                          ("grant", grant_json g);
                          ("steps", JArr steps);
                          ("summary", summary) ]) /\
      st' = store_grant g (log_transfer target (net_of (tx_value tx)) st)).
Proof.
  unfold post_test_e2e, e2e_error.
  repeat case_match; intros; simplify_eq; simpl; auto.
  all: right; eexists _, _, _, _, _; repeat split; eauto.
Qed.

Lemma Map_get_set {V : Type} (k : string) (v : V) (m : list (string * V)) :
  Map_get k (Map_set k v m) = Some v.
Proof.
  induction m as [|[k' v'] m IH]; simpl.
  - now rewrite String.eqb_refl.
  - destruct (String.eqb k' k) eqn:E; simpl; [now rewrite String.eqb_refl|].
    now rewrite E.
Qed.

(** *** Fee split *)

Lemma fee_of_floor (gross : Z) : 0 <= gross -> fee_of gross = gross * 5 / 100.
Proof.
  intros H. unfold fee_of, FEE_PERCENT. apply Z.quot_div_nonneg; lia.
Qed.

Lemma fee_of_bounds (gross : Z) : 0 <= gross -> 0 <= fee_of gross <= gross.
Proof.
  intros H. rewrite fee_of_floor by assumption. split.
  - apply Z.div_pos; lia.
  - apply Z.div_le_upper_bound; lia.
Qed.

(** C3. A grant recorded by [POST /grants] or by [POST /test/e2e] stores the
    gross amount the request worked with, and for a non-negative gross amount
    its fee is [floor(gross * 5 / 100)] and its net amount is gross minus
    fee, so that fee plus net is gross and the fee does not exceed gross. *)
Theorem recorded_fee_split (o : operation) (st : state) :
  fst (fst (apply_operation o st)) = success_status o ->
  exists (g : grant) (gross : Z),
    Map_get (operation_id o) (grants (snd (apply_operation o st))) = Some g /\
    property "grant" (fst (apply_operation o st)) = Some (grant_json g) /\
    funding_amount o = Some gross /\
    BigInt (grossAmount g) = Some gross /\
    (0 <= gross ->
     BigInt (fee g) = Some (gross * 5 / 100) /\
     BigInt (netAmount g) = Some (gross - gross * 5 / 100) /\
     amount_value (fee g) + amount_value (netAmount g) = amount_value (grossAmount g) /\
     amount_value (fee g) <= amount_value (grossAmount g)).
Proof.
  destruct o as [req w|req w]; simpl; intros Hok.
  - destruct (post_grants req w st) as [resp st'] eqn:E. simpl in *.
    apply post_grants_inv in E as [([H|[H|H]] & _)|E]; [lia..|].
    destruct E as (st0 & recipient & txHash & gross & txFrom & hash & st1 & _ & _ & _ & _ & _
                   & Hfund & _ & -> & ->).
    eexists _, gross. split; [apply Map_get_set|].
    split; [reflexivity|]. split; [now rewrite Hfund|].
    cbn [new_grant grossAmount fee netAmount].
    rewrite !amount_value_toString, !BigInt_toString_roundtrip.
    split; [reflexivity|]. intros Hge.
    pose proof (fee_of_bounds gross Hge). unfold net_of.
    rewrite !fee_of_floor by assumption. rewrite fee_of_floor in H by assumption.
    repeat split; lia.
  - destruct (post_test_e2e req w st) as [resp st'] eqn:E. simpl in *.
    apply post_test_e2e_inv in E as [([H|H] & _)|E]; [lia..|].
    destruct E as (txHash & tx & hash & steps & summary & _ & Htx & _ & -> & ->).
    eexists _, (tx_value tx). split; [apply Map_get_set|].
    split; [reflexivity|]. split; [now rewrite Htx|].
    cbn [e2e_grant grossAmount fee netAmount].
    rewrite !amount_value_toString, !BigInt_toString_roundtrip.
    split; [reflexivity|]. intros Hge.
    pose proof (fee_of_bounds (tx_value tx) Hge). unfold net_of.
    rewrite !fee_of_floor by assumption. rewrite fee_of_floor in H by assumption.
    repeat split; lia.
Qed.

(** *** Failed requests write nothing *)

(** C4. A request to [POST /grants] that is not answered with 201, whatever
    the step at which it failed, leaves the grant ledger and the grantor
    statistics as they were. *)
Theorem failed_grant_writes_nothing (req : request) (w : world) (st : state) :
  fst (fst (post_grants req w st)) <> 201 ->
  grants (snd (post_grants req w st)) = grants st /\
  grantors (snd (post_grants req w st)) = grantors st.
Proof.
  destruct (post_grants req w st) as [resp st'] eqn:E. simpl. intros Hne.
  apply post_grants_inv in E as [(_ & H)|E]; [exact H|].
  destruct E as (? & ? & ? & ? & ? & ? & ? & _ & _ & _ & _ & _ & _ & _ & -> & _).
  now contradiction Hne.
Qed.

(** *** The duplicate check *)

Lemma find_head_filter {A : Type} (f : A -> bool) (l : list A) :
  List.find f l = head (List.filter f l).
Proof.
  induction l as [|x l IH]; simpl; [reflexivity|].
  destruct (f x); [reflexivity|exact IH].
Qed.

Lemma find_by_funding_tx_head (txHash : string) (st : state) :
  find_by_funding_tx txHash st = head (funded_by txHash st).
Proof. apply find_head_filter. Qed.

Lemma funded_by_grants (txHash : string) (st st' : state) :
  grants st' = grants st -> funded_by txHash st' = funded_by txHash st.
Proof. unfold funded_by. now intros ->. Qed.

(** C1 (amended). A request to [POST /grants] whose [txHash] equals, up to
    letter case, the funding hash of a stored record is never answered 201:
    no record is created, no statistics change and no transfer is made, so
    the records funded by that hash stay as they were.
    When it passes the whitelist middleware and names a valid recipient, it
    is answered with 400 "Transaction already used for grant" and the id of
    the first such record in insertion order. *)
Theorem duplicate_funding_rejected (req : request) (w : world) (st : state) (txHash : string) :
  field (body req) "txHash" = Some txHash ->
  funded_by txHash st <> [] ->
  fst (fst (post_grants req w st)) <> 201 /\
  grants (snd (post_grants req w st)) = grants st /\
  grantors (snd (post_grants req w st)) = grantors st /\
  transfers (snd (post_grants req w st)) = transfers st /\
  funded_by txHash (snd (post_grants req w st)) = funded_by txHash st /\
  forall recipient : string,
    fst (requireWhitelist "address" req w st) = inr tt ->
    field (body req) "recipient" = Some recipient ->
    isAddress recipient = true ->
    exists g : grant,
      head (funded_by txHash st) = Some g /\
      fst (post_grants req w st) = (400, duplicate_body (id g)).
Proof.
  intros Htx Hdup.
  pose proof (requireWhitelist_ledger "address" req w st) as (Hg & Hs & Ht).
  pose proof (funded_by_grants txHash st) as Hsame.
  unfold post_grants.
  destruct (requireWhitelist "address" req w st) as [[r|[]] st0] eqn:Hgate;
    simpl in Hg, Hs, Ht.
  - repeat split; auto; [|discriminate].
    unfold requireWhitelist in Hgate.
    destruct (candidate_address "address" (body req)); [|simplify_eq; simpl; lia].
    destruct (fetchWhitelist w st). case_decide; simplify_eq. simpl. lia.
  - destruct (funded_by txHash st) as [|g rest] eqn:Hf; [contradiction|].
    assert (Hfind : find_by_funding_tx txHash st0 = Some g).
    { now rewrite find_by_funding_tx_head, (funded_by_grants _ _ _ Hg), Hf. }
    unfold post_grants_handler.
    destruct (grants_precheck req st0) as [r|] eqn:Hpre.
    + pose proof (grants_precheck_status _ _ _ Hpre) as H400. simpl.
      repeat split; auto; [lia|].
      intros recipient _ Hrec Haddr. exists g. split; [reflexivity|].
      unfold grants_precheck in Hpre. rewrite Hrec, Htx, Haddr, Hfind in Hpre.
      simpl in Hpre. now injection Hpre as <-.
    + exfalso. unfold grants_precheck in Hpre. rewrite Htx, Hfind in Hpre.
      destruct (field (body req) "recipient") as [recipient|]; [|discriminate].
      destruct (isAddress recipient); discriminate.
Qed.

Lemma Map_set_filter_new {V : Type} (P : V -> bool) (k : string) (v : V)
    (m : list (string * V)) :
  List.filter P (Map_values m) = [] -> P v = true ->
  List.filter P (Map_values (Map_set k v m)) = [v].
Proof.
  unfold Map_values. induction m as [|[k' v'] m IH]; simpl; intros Hnone Hv.
  - now rewrite Hv.
  - destruct (P v') eqn:Ev'; [discriminate|].
    destruct (String.eqb k' k); simpl.
    + now rewrite Hv, Hnone.
    + rewrite Ev'. now apply IH.
Qed.

(** Two submissions of one funding hash, one after the other: the second is
    not answered with 201, whatever else it carries, and the ledger holds
    exactly one record for that hash. *)
Lemma same_funding_tx_twice (req1 req2 : request) (w1 w2 : world) (st : state)
    (h1 h2 : string) :
  field (body req1) "txHash" = Some h1 ->
  funded_by h1 st = [] ->
  fst (fst (post_grants req1 w1 st)) = 201 ->
  field (body req2) "txHash" = Some h2 ->
  toLowerCase h2 = toLowerCase h1 ->
  let st1 := snd (post_grants req1 w1 st) in
  fst (fst (post_grants req2 w2 st1)) <> 201 /\
  grants (snd (post_grants req2 w2 st1)) = grants st1 /\
  length (funded_by h1 (snd (post_grants req2 w2 st1))) = 1%nat.
Proof.
  intros Hh1 Hnone Hok Hh2 Hcase st1.
  assert (Hone : exists g, funded_by h1 st1 = [g]).
  { subst st1. destruct (post_grants req1 w1 st) as [resp st'] eqn:E. simpl in *.
    apply post_grants_inv in E as [([H|[H|H]] & _)|E]; [lia..|].
    destruct E as (st0 & recipient & txHash & gross & txFrom & hash & st2 & Hgate & _ & Htx
                   & _ & _ & _ & Hdist & _ & ->).
    rewrite Hh1 in Htx. injection Htx as <-.
    pose proof (requireWhitelist_ledger "address" req1 w1 st) as (Hg0 & _).
    rewrite Hgate in Hg0. simpl in Hg0.
    pose proof (distribute_ledger (isMock req1) recipient (net_of gross) w1 st0) as (Hg2 & _).
    rewrite Hdist in Hg2. simpl in Hg2.
    eexists. unfold funded_by, record_grant. cbn [grants].
    apply Map_set_filter_new.
    - rewrite Hg2, Hg0. exact Hnone.
    - unfold same_funding_tx. cbn [new_grant fundingTxHash]. apply String.eqb_refl. }
  destruct Hone as [g Hone].
  destruct (post_grants req2 w2 st1) as [resp2 st2] eqn:E2. simpl.
  apply post_grants_inv in E2 as [(Hst & Hg & _)|E2].
  - split; [lia|]. split; [exact Hg|].
    now rewrite (funded_by_grants _ _ _ Hg), Hone.
  - exfalso.
    destruct E2 as (st0 & recipient & txHash & gross & txFrom & hash & st3 & Hgate & _ & Htx
                    & _ & Hfind & _).
    rewrite Hh2 in Htx. injection Htx as <-.
    pose proof (requireWhitelist_ledger "address" req2 w2 st1) as (Hg0 & _).
    rewrite Hgate in Hg0. simpl in Hg0.
    rewrite find_by_funding_tx_head, (funded_by_grants _ _ _ Hg0) in Hfind.
    assert (Hsame : funded_by h2 st1 = funded_by h1 st1).
    { unfold funded_by, same_funding_tx. now rewrite Hcase. }
    rewrite Hsame, Hone in Hfind. discriminate.
Qed.

(** *** Invariants of the ledger *)

Lemma Map_set_values {V : Type} (k : string) (v x : V) (m : list (string * V)) :
  x ∈ Map_values (Map_set k v m) -> x = v \/ x ∈ Map_values m.
Proof.
  unfold Map_values. induction m as [|[k' v'] m IH]; simpl.
  - intros ->%list_elem_of_singleton. now left.
  - destruct (String.eqb k' k); simpl; rewrite !elem_of_cons.
    + intros [->|H]; auto.
    + intros [->|H]; auto. destruct (IH H); auto.
Qed.

Lemma Map_set_Forall {V : Type} (P : V -> Prop) (k : string) (v : V) (m : list (string * V)) :
  Forall P (Map_values m) -> P v -> Forall P (Map_values (Map_set k v m)).
Proof.
  rewrite !Forall_forall. intros Hm Hv x Hx.
  apply Map_set_values in Hx as [->|Hx]; auto.
Qed.

Lemma Map_set_fresh {V : Type} (k : string) (v : V) (m : list (string * V)) :
  Map_get k m = None -> Map_set k v m = m ++ [(k, v)].
Proof.
  induction m as [|[k' v'] m IH]; simpl; [reflexivity|].
  destruct (String.eqb k' k); [discriminate|]. intros H. now rewrite IH.
Qed.

Lemma Map_set_NoDup {V K : Type} (f : V -> K) (k : string) (v : V) (m : list (string * V)) :
  NoDup (map f (Map_values m)) -> f v ∉ map f (Map_values m) ->
  NoDup (map f (Map_values (Map_set k v m))).
Proof.
  unfold Map_values. induction m as [|[k' v'] m IH]; simpl.
  - intros _ _. apply NoDup_singleton.
  - rewrite !NoDup_cons, not_elem_of_cons. intros [Hv' Hm] [Hne Hv].
    destruct (String.eqb k' k); simpl; rewrite NoDup_cons.
    + auto.
    + split; [|auto]. intros (x & Hfx & Hx)%list_elem_of_fmap.
      apply (Map_set_values k v x m) in Hx as [->|Hx]; [congruence|].
      apply Hv'. rewrite Hfx. apply list_elem_of_fmap. eauto.
Qed.

(** Among requests to [POST /grants] alone, funding hashes stay unique. *)
Lemma post_grants_keeps_unique (req : request) (w : world) (st : state) :
  unique_funding st -> unique_funding (snd (post_grants req w st)).
Proof.
  intros Hu. destruct (post_grants req w st) as [resp st'] eqn:E. simpl.
  apply post_grants_inv in E as [(_ & Hg & _)|E].
  { unfold unique_funding. now rewrite Hg. }
  destruct E as (st0 & recipient & txHash & gross & txFrom & hash & st1 & Hgate & _ & _ & _
                 & Hfind & _ & Hdist & _ & ->).
  pose proof (requireWhitelist_ledger "address" req w st) as (Hg0 & _).
  rewrite Hgate in Hg0. simpl in Hg0.
  pose proof (distribute_ledger (isMock req) recipient (net_of gross) w st0) as (Hg1 & _).
  rewrite Hdist in Hg1. simpl in Hg1.
  unfold unique_funding, record_grant. cbn [grants]. rewrite Hg1, Hg0.
  apply Map_set_NoDup; [exact Hu|].
  cbn [new_grant fundingTxHash].
  intros (g & Hlow & Hin)%list_elem_of_fmap.
  unfold find_by_funding_tx in Hfind. rewrite Hg0 in Hfind.
  apply list_elem_of_In in Hin.
  pose proof (List.find_none _ _ Hfind g Hin) as Hne. simpl in Hne.
  rewrite <- Hlow, String.eqb_refl in Hne. discriminate.
Qed.

Lemma record_grant_grants (g : grant) (v : Z) (st : state) :
  grants (record_grant g v st) = Map_set (id g) g (grants st).
Proof. reflexivity. Qed.






(** With fresh identifiers, [POST /grants] keeps the statistics map in step
    with the grantors of the stored records. *)
Lemma post_grants_keeps_cover (req : request) (w : world) (st : state) :
  Map_get (uuid_id w) (grants st) = None ->
  stats_cover st -> stats_cover (snd (post_grants req w st)).
Proof.
  intros Hfresh Hc. destruct (post_grants req w st) as [resp st'] eqn:E. simpl.
  apply post_grants_inv in E as [(_ & Hg & Hs)|E].
  { unfold stats_cover. now rewrite Hg, Hs. }
  destruct E as (st0 & recipient & txHash & gross & txFrom & hash & st1 & Hgate & _ & _ & _
                 & _ & _ & Hdist & _ & ->).
  pose proof (requireWhitelist_ledger "address" req w st) as (Hg0 & Hs0 & _).
  rewrite Hgate in Hg0, Hs0. simpl in Hg0, Hs0.
  pose proof (distribute_ledger (isMock req) recipient (net_of gross) w st0) as (Hg1 & Hs1 & _).
  rewrite Hdist in Hg1, Hs1. simpl in Hg1, Hs1.
  set (g := new_grant req w recipient txHash gross txFrom hash).
  unfold stats_cover in *. unfold record_grant. cbn [grants grantors].
  rewrite Hg1, Hg0, Hs1, Hs0.
  change (id g) with (uuid_id w). rewrite (Map_set_fresh _ _ _ Hfresh).
  unfold Map_values. rewrite !map_app, list_to_set_app_L, dom_insert_L, Hc. simpl.
  rewrite (right_id_L ∅ (∪)). apply (comm_L (∪)).
Qed.

(** *** Listing *)











(** *** Aggregate totals *)





(** *** Grantor statistics *)


(** With fresh identifiers, both routes keep every key of the statistics map
    the grantor of a stored record. *)
Lemma operation_keeps_sound (o : operation) (st : state) :
  fresh_id o st -> stats_sound st -> stats_sound (snd (apply_operation o st)).
Proof.
  intros Hfresh Hs.
  assert (Hvalues : forall (g : grant),
            list_to_set (map grantor (Map_values (Map_set (operation_id o) g (grants st))))
            = (list_to_set (map grantor (Map_values (grants st))) ∪ {[ grantor g ]} : gset string)).
  { intros g. destruct o; simpl in Hfresh |- *; rewrite (Map_set_fresh _ _ _ Hfresh);
      unfold Map_values; rewrite !map_app, list_to_set_app_L; simpl;
      now rewrite (right_id_L ∅ (∪)). }
  unfold stats_sound in *. destruct o as [req w|req w]; simpl in *.
  - destruct (post_grants req w st) as [resp st'] eqn:E. simpl.
    apply post_grants_inv in E as [(_ & Hg & Hm)|E]; [now rewrite Hg, Hm|].
    destruct E as (st0 & rcp & txHash & gross & txFrom & hash & st1 & Hgate & _ & _ & _
                   & _ & _ & Hdist & _ & ->).
    pose proof (requireWhitelist_ledger "address" req w st) as (Hg0 & Hs0 & _).
    rewrite Hgate in Hg0, Hs0. simpl in Hg0, Hs0.
    pose proof (distribute_ledger (isMock req) rcp (net_of gross) w st0) as (Hg1 & Hs1 & _).
    rewrite Hdist in Hg1, Hs1. simpl in Hg1, Hs1.
    unfold record_grant. cbn [grants grantors]. rewrite Hg1, Hg0, Hs1, Hs0.
    change (id (new_grant req w rcp txHash gross txFrom hash)) with (uuid_id w).
    rewrite Hvalues, dom_insert_L.
    apply union_least; [apply union_subseteq_r|].
    etransitivity; [exact Hs|apply union_subseteq_l].
  - destruct (post_test_e2e req w st) as [resp st'] eqn:E. simpl.
    apply post_test_e2e_inv in E as [(_ & Hg & Hm)|E]; [now rewrite Hg, Hm|].
    destruct E as (txHash & tx & hash & steps & summary & _ & _ & _ & _ & ->).
    unfold store_grant, log_transfer. cbn [grants grantors].
    match goal with |- context [Map_set (id ?g) ?g _] => change (id g) with (uuid_id w) end.
    rewrite Hvalues. etransitivity; [exact Hs|apply union_subseteq_l].
Qed.

Lemma reachable_sound (ops : list operation) (st : state) :
  fresh_ids ops st -> stats_sound st -> stats_sound (run_operations ops st).
Proof.
  revert st. induction ops as [|o ops IH]; intros st Hf Hs; simpl; [exact Hs|].
  destruct Hf as [Ho Hf]. apply IH; [exact Hf|]. now apply operation_keeps_sound.
Qed.

(** Through [POST /grants] alone, funding hashes stay unique and, with fresh
    identifiers, the statistics map covers exactly the stored grantors. *)
Lemma grants_only_invariants (ops : list operation) (st : state) :
  grants_only ops -> fresh_ids ops st ->
  unique_funding st /\ stats_cover st ->
  unique_funding (run_operations ops st) /\ stats_cover (run_operations ops st).
Proof.
  intros Hg. revert st. induction Hg as [|o ops Ho Hg IH]; intros st Hf [Hu Hc]; simpl; [auto|].
  destruct Hf as [Hfo Hf]. destruct o as [req w|req w]; [|contradiction].
  apply IH; [exact Hf|]. split.
  - now apply post_grants_keeps_unique.
  - now apply post_grants_keeps_cover.
Qed.


(** *** The whitelist gate *)


(** *** Requests in flight *)


Lemma schedule_step_at (i : nat) (st st' : state) (pool : list thread) (t t' : thread) :
  pool !! i = Some t -> thread_step t st = (t', st') ->
  schedule_step i (st, pool) = (st', <[ i := t' ]> pool).
Proof. intros Hi Ht. unfold schedule_step. now rewrite Hi, Ht. Qed.

Lemma await_funding_step (req : request) (w : world) (st : state)
    (r h : string) (f : Z) (from : string) :
  isMock req = false -> funding_of req w = Next (f, from) -> wallet w = Ok true ->
  thread_step (AwaitFunding req w r h) st
  = (AwaitSend req w r h f from, log_transfer r (net_of f) st).
Proof.
  intros Hm Hf Hw. cbn [thread_step]. unfold after_funding. now rewrite Hf, Hm, Hw.
Qed.

Lemma await_send_step (req : request) (w : world) (st : state)
    (r h : string) (f : Z) (from sent : string) :
  send_result w = Ok sent ->
  thread_step (AwaitSend req w r h f from) st
  = (Finished (201, created_body (new_grant req w r h f from sent)),
     record_grant (new_grant req w r h f from sent) f st).
Proof. intros Hs. cbn [thread_step]. now rewrite Hs. Qed.

(** Whenever two live requests each pass the gate and the duplicate check on
    arrival and their lookups and transfers succeed, the alternating schedule
    records both and sends both transfers, whatever their funding hashes. *)
Lemma alternating_records_both (reqA reqB : request) (wA wB : world) (st st1 st2 : state)
    (rA hA rB hB : string) (fA fB : Z) (fromA fromB sentA sentB : string) :
  isMock reqA = false -> isMock reqB = false ->
  thread_step (Arrived reqA wA) st = (AwaitFunding reqA wA rA hA, st1) ->
  thread_step (Arrived reqB wB) st1 = (AwaitFunding reqB wB rB hB, st2) ->
  funding_of reqA wA = Next (fA, fromA) -> funding_of reqB wB = Next (fB, fromB) ->
  wallet wA = Ok true -> wallet wB = Ok true ->
  send_result wA = Ok sentA -> send_result wB = Ok sentB ->
  let gA := new_grant reqA wA rA hA fA fromA sentA in
  let gB := new_grant reqB wB rB hB fB fromB sentB in
  let cfg := run_schedule [0; 1; 0; 1; 0; 1]%nat (st, [Arrived reqA wA; Arrived reqB wB]) in
  snd cfg = [Finished (201, created_body gA); Finished (201, created_body gB)] /\
  grants (fst cfg) = Map_set (id gB) gB (Map_set (id gA) gA (grants st2)) /\
  transfers (fst cfg) = transfers st2 ++ [(rA, net_of fA); (rB, net_of fB)].
Proof.
  intros HmA HmB H1 H2 HfA HfB HwA HwB HsA HsB. cbv zeta.
  unfold run_schedule. cbn [fold_left].
  erewrite (schedule_step_at 0 st); [|reflexivity|exact H1]. cbn [insert list_insert].
  erewrite (schedule_step_at 1 st1); [|reflexivity|exact H2]. cbn [insert list_insert].
  erewrite (schedule_step_at 0 st2);
    [|reflexivity|now apply await_funding_step with (f := fA) (from := fromA)].
  cbn [insert list_insert].
  erewrite (schedule_step_at 1);
    [|reflexivity|now apply await_funding_step with (f := fB) (from := fromB)].
  cbn [insert list_insert].
  erewrite (schedule_step_at 0); [|reflexivity|now apply await_send_step with (sent := sentA)].
  cbn [insert list_insert].
  erewrite (schedule_step_at 1); [|reflexivity|now apply await_send_step with (sent := sentB)].
  cbn [insert list_insert fst snd].
  repeat split. cbn [record_grant log_transfer transfers].
  now rewrite <- app_assoc.
Qed.

(** *** Amounts as text *)

Lemma formatETH_micro (k : Z) :
  0 <= k < 2 ^ 52 ->
  formatETH (k * 10 ^ 12)
  = (nat_toString (k / 10 ^ 6) +:+ String "." (fixed_digits 6 k "")) +:+ " ETH".
Proof.
  intros Hk. unfold formatETH. f_equal.
  destruct (Z.eq_dec k 0) as [->|Hnz]; [reflexivity|].
  unfold parseFloat, Ethers.formatEther.
  destruct (k * 10 ^ 12 =? 0) eqn:E0; [apply Z.eqb_eq in E0; lia|].
  destruct (k * 10 ^ 12 <? 0) eqn:E1; [apply Z.ltb_lt in E1; lia|].
  rewrite Z.abs_eq by lia.
  destruct (nearest_double_micro k ltac:(lia)) as [Hge Hround].
  destruct (nearest_double (k * 10 ^ 12) (10 ^ 18)) as [m e]. cbn [fst snd] in Hge, Hround.
  unfold toFixed. rewrite Hge. change (Z.of_nat 6) with 6. now rewrite Hround.
Qed.

(** C5 (amended). An amount that is a whole number of millionths of an
    ether (a multiple of [10^12] wei), below [2^52] millionths, is given
    back exactly by [parseETH] after [formatETH]. *)
Theorem format_parse_micro (k : Z) :
  0 <= k < 2 ^ 52 ->
  parseETH (formatETH (k * 10 ^ 12)) = Some (k * 10 ^ 12).
Proof.
  intros Hk. rewrite (formatETH_micro k Hk). unfold parseETH.
  destruct (nat_toString_spec (k / 10 ^ 6) ltac:(apply Z.div_pos; lia)) as (Hne & HW & Hw).
  destruct (fixed_digits_spec 6 k "") as (F & HF & Hlen & Hall & Hf).
  rewrite HF, append_nil_r.
  set (W := nat_toString (k / 10 ^ 6)) in *.
  assert (Hplain : Forall (fun c => is_space c = false)
                          (list_ascii_of_string (W +:+ String "." F))).
  { rewrite list_ascii_app. apply Forall_app. split; [now apply digits_no_space|].
    simpl. constructor; [reflexivity|now apply digits_no_space]. }
  rewrite (remove_first_suffix _ Hplain), (trim_no_space _ Hplain).
  unfold Ethers.parseEther.
  replace 18%nat with (String.length F + 12)%nat by (now rewrite Hlen).
  rewrite (parseUnits_fixed W F (k / 10 ^ 6) (k mod 10 ^ 6) 12 Hne HW Hall).
  - f_equal. rewrite Hlen. change (Z.of_nat 6) with 6. change (Z.of_nat 12) with 12.
    pose proof (Z.div_mod k (10 ^ 6) ltac:(lia)). lia.
  - rewrite Hw. f_equal; lia.
  - intros a. rewrite Hf, Hlen. reflexivity.
Qed.

End ServerProperties.

(** * Worked examples *)

Section Examples.

Import JS.

(** C1, as stated, fails: the funding hash of a stored record, sent without
    a recipient, is answered with the missing-field error, which carries no
    grant id. *)
Lemma duplicate_without_recipient :
  funded_by tx_F00D one_grant <> [] /\
  fst (post_grants (request_without_recipient tx_F00D)
                   (sample_world uuid_2 2000 (10 ^ 16)) one_grant)
  = (400, missing_fields_body) /\
  property "grantId" (400, missing_fields_body) = None /\
  forall grantId : string, (400, missing_fields_body) <> (400, duplicate_body grantId).
Proof.
  split; [|split; [|split]].
  - vm_compute. discriminate.
  - vm_compute. reflexivity.
  - reflexivity.
  - intros grantId. vm_compute. discriminate.
Qed.

(** C2. The funding hash of a recorded grant is accepted again by
    [POST /test/e2e]: the ledger then holds two records for it and two
    transfers were made. *)
Lemma e2e_reuses_funding_tx :
  let st := run_operations reuse_by_e2e initial_state in
  map fundingTxHash (funded_by tx_f00d st) = [tx_f00d; tx_F00D] /\
  map id (funded_by tx_f00d st) = [uuid_1; uuid_2] /\
  ~ unique_funding st /\
  length (transfers st) = 2%nat.
Proof.
  cbv zeta. split; [|split; [|split]].
  - vm_compute. reflexivity.
  - vm_compute. reflexivity.
  - unfold unique_funding.
    replace (map _ _) with [tx_f00d; tx_f00d] by (vm_compute; reflexivity).
    rewrite NoDup_cons. intros [H _]. apply H. now left.
  - vm_compute. reflexivity.
Qed.

(** C9. Two requests with one funding hash, interleaved at their [await]s:
    both pass the duplicate check before either records its grant, both are
    answered 201, two records are stored and two transfers are made. *)
Lemma concurrent_duplicates :
  let cfg := run_schedule alternating (initial_state, racing_pool) in
  map id (funded_by tx_f00d (fst cfg)) = [uuid_a; uuid_b] /\
  length (transfers (fst cfg)) = 2%nat /\
  Forall (fun t => exists r, t = Finished r /\ fst r = 201) (snd cfg).
Proof.
  cbv zeta. split; [|split].
  - vm_compute. reflexivity.
  - vm_compute. reflexivity.
  - vm_compute. repeat constructor; eexists; split; reflexivity.
Qed.


(** A grant recorded through [POST /test/e2e] is missing from the grantor
    statistics: [GET /stats] then counts no grantor, and the grantor's own
    page shows zero grants. *)
Lemma e2e_skips_statistics :
  let st := snd (post_test_e2e (sample_request tx_f00d) (sample_world uuid_1 1000 (10 ^ 16))
                               initial_state) in
  map grantor (Map_values (grants st)) = [toLowerCase alice] /\
  property "uniqueGrantors" (get_stats st) = Some (JNum 0) /\
  get_grantor alice st = (200, zero_stats_body alice).
Proof. cbv zeta. repeat split; vm_compute; reflexivity. Qed.

(** C5, as stated, fails: one wei is formatted as ["0.000000 ETH"], which
    parses to zero. *)
Lemma format_parse_loses_wei :
  formatETH 1 = "0.000000 ETH" /\ parseETH (formatETH 1) = Some 0.
Proof. split; vm_compute; reflexivity. Qed.

(** The theorems above at the sample requests. *)

Lemma duplicate_funding_rejected_witness :
  fst (post_grants (sample_request tx_F00D) (sample_world uuid_2 2000 (10 ^ 16)) one_grant)
  = (400, duplicate_body uuid_1) /\
  grants (snd (post_grants (sample_request tx_F00D) (sample_world uuid_2 2000 (10 ^ 16))
                           one_grant))
  = grants one_grant.
Proof.
  assert (H1 : field (body (sample_request tx_F00D)) "txHash" = Some tx_F00D)
    by (vm_compute; reflexivity).
  assert (H2 : funded_by tx_F00D one_grant <> []) by (vm_compute; discriminate).
  destruct (duplicate_funding_rejected _ (sample_world uuid_2 2000 (10 ^ 16)) _ _ H1 H2)
    as (_ & Hgrants & _ & _ & _ & Hdup).
  assert (H3 : fst (requireWhitelist "address" (sample_request tx_F00D)
                      (sample_world uuid_2 2000 (10 ^ 16)) one_grant) = inr tt)
    by (vm_compute; reflexivity).
  assert (H4 : field (body (sample_request tx_F00D)) "recipient" = Some bob)
    by (vm_compute; reflexivity).
  assert (H5 : isAddress bob = true) by (vm_compute; reflexivity).
  destruct (Hdup bob H3 H4 H5) as (g & Hhead & Hresp).
  vm_compute in Hhead. injection Hhead as <-.
  exact (conj Hresp Hgrants).
Defined.

Lemma recorded_fee_split_witness :
  exists g : grant,
    Map_get uuid_1 (grants one_grant) = Some g /\
    BigInt (grossAmount g) = Some (10 ^ 16) /\
    BigInt (fee g) = Some (5 * 10 ^ 14) /\
    BigInt (netAmount g) = Some (95 * 10 ^ 14).
Proof.
  assert (H : fst (fst (apply_operation
                          (PostGrants (sample_request tx_f00d)
                                      (sample_world uuid_1 1000 (10 ^ 16)))
                          initial_state))
              = success_status (PostGrants (sample_request tx_f00d)
                                           (sample_world uuid_1 1000 (10 ^ 16))))
    by (vm_compute; reflexivity).
  destruct (recorded_fee_split _ _ H) as (g & gross & Hget & _ & Hfund & Hgross & Hsplit).
  vm_compute in Hfund. injection Hfund as <-.
  destruct (Hsplit ltac:(lia)) as (Hfee & Hnet & _).
  exists g. repeat split; assumption.
Defined.

Lemma failed_grant_writes_nothing_witness :
  grants (snd (post_grants (sample_request tx_cafe) broke_world one_grant)) = grants one_grant /\
  grantors (snd (post_grants (sample_request tx_cafe) broke_world one_grant))
  = grantors one_grant.
Proof.
  apply failed_grant_writes_nothing. vm_compute. intros H. discriminate H.
Defined.

Lemma format_parse_micro_witness :
  parseETH (formatETH (10000 * 10 ^ 12)) = Some (10000 * 10 ^ 12).
Proof. apply (format_parse_micro 10000). lia. Defined.





End Examples.

(** * Further properties of the routes *)

Section Coverage.

Import JS.

Context {lib : Collaborators}.

#[local] Arguments String.append !_ _ / : simpl nomatch.

(** ** The map of records *)

Lemma Map_get_set_ne {V : Type} (k k' : string) (v : V) (m : list (string * V)) :
  k <> k' -> Map_get k' (Map_set k v m) = Map_get k' m.
Proof.
  intros Hne. induction m as [|[k0 v0] m IH]; simpl.
  - destruct (String.eqb_spec k k'); [contradiction|reflexivity].
  - destruct (String.eqb_spec k0 k) as [->|Hk0]; simpl.
    + destruct (String.eqb_spec k k'); [contradiction|reflexivity].
    + destruct (String.eqb_spec k0 k'); [reflexivity|exact IH].
Qed.

Lemma Map_set_keys {V : Type} (k x : string) (v : V) (m : list (string * V)) :
  x ∈ map fst (Map_set k v m) -> x = k \/ x ∈ map fst m.
Proof.
  induction m as [|[k0 v0] m IH]; simpl.
  - rewrite list_elem_of_singleton. auto.
  - destruct (String.eqb_spec k0 k) as [->|Hk0]; simpl; rewrite !elem_of_cons.
    + intros [->|H]; auto.
    + intros [->|H]; auto. destruct (IH H); auto.
Qed.

Lemma Map_set_keys_NoDup {V : Type} (k : string) (v : V) (m : list (string * V)) :
  NoDup (map fst m) -> NoDup (map fst (Map_set k v m)).
Proof.
  induction m as [|[k0 v0] m IH]; simpl; intros Hn.
  - repeat constructor. apply not_elem_of_nil.
  - apply NoDup_cons in Hn as [Hk0 Hn].
    destruct (String.eqb_spec k0 k) as [->|Hne]; simpl.
    + apply NoDup_cons. auto.
    + apply NoDup_cons. split; [|auto].
      intros Hin. apply Map_set_keys in Hin as [->|Hin]; [now apply Hne|now apply Hk0].
Qed.

Lemma Map_set_pairs {V : Type} (P : string * V -> Prop) (k : string) (v : V)
    (m : list (string * V)) :
  Forall P m -> P (k, v) -> Forall P (Map_set k v m).
Proof.
  intros Hm Hv. induction Hm as [|[k0 v0] m H0 Hm IH]; simpl.
  - repeat constructor. exact Hv.
  - destruct (String.eqb k0 k); constructor; auto.
Qed.

Lemma Map_get_None {V : Type} (k : string) (m : list (string * V)) :
  Map_get k m = None <-> k ∉ map fst m.
Proof.
  induction m as [|[k0 v0] m IH]; simpl.
  - split; [intros _; apply not_elem_of_nil|reflexivity].
  - rewrite not_elem_of_cons. destruct (String.eqb_spec k0 k) as [->|Hne].
    + split; [discriminate|]. intros [H _]. now contradiction H.
    + rewrite IH. split; [intros H; split; [congruence|exact H]|intros [_ H]; exact H].
Qed.

Lemma Map_get_elem {V : Type} (k : string) (v : V) (m : list (string * V)) :
  Map_get k m = Some v -> (k, v) ∈ m.
Proof.
  induction m as [|[k0 v0] m IH]; simpl; [discriminate|].
  destruct (String.eqb_spec k0 k) as [->|Hne].
  - intros [= ->]. apply elem_of_cons. now left.
  - intros H. apply elem_of_cons. right. auto.
Qed.

Lemma Map_get_of_elem {V : Type} (k : string) (v : V) (m : list (string * V)) :
  NoDup (map fst m) -> (k, v) ∈ m -> Map_get k m = Some v.
Proof.
  induction m as [|[k0 v0] m IH]; simpl; intros Hn Hin.
  - now apply elem_of_nil in Hin.
  - apply NoDup_cons in Hn as [Hk0 Hn]. apply elem_of_cons in Hin as [[= -> ->]|Hin].
    + now rewrite String.eqb_refl.
    + destruct (String.eqb_spec k0 k) as [->|Hne]; [|auto].
      contradiction Hk0. apply list_elem_of_fmap. now exists (k, v).
Qed.

Lemma Map_set_length {V : Type} (k : string) (v : V) (m : list (string * V)) :
  (length m <= length (Map_set k v m) <= length m + 1)%nat.
Proof.
  induction m as [|[k0 v0] m IH]; simpl; [lia|].
  destruct (String.eqb k0 k); simpl; lia.
Qed.

Lemma Map_set_keeps {V : Type} (k k' : string) (v : V) (m : list (string * V)) :
  is_Some (Map_get k' m) -> is_Some (Map_get k' (Map_set k v m)).
Proof.
  intros H. destruct (String.eqb_spec k k') as [->|Hne].
  - rewrite Map_get_set. eauto.
  - now rewrite Map_get_set_ne.
Qed.

(** ** One operation on the ledger *)

(** What one operation does to the two maps: nothing, or one record built
    by the server is stored under the identifier drawn for it. *)
Lemma operation_effect (o : operation) (st : state) :
  (fst (fst (apply_operation o st)) <> success_status o /\
   grants (snd (apply_operation o st)) = grants st /\
   grantors (snd (apply_operation o st)) = grantors st) \/
  (exists (g : grant) (gross : Z),
      fst (fst (apply_operation o st)) = success_status o /\
      grants (snd (apply_operation o st)) = Map_set (operation_id o) g (grants st) /\
      property "grant" (fst (apply_operation o st)) = Some (grant_json g) /\
      id g = operation_id o /\
      funding_amount o = Some gross /\
      grossAmount g = BigInt_toString gross /\
      record_consistent g).
Proof.
  assert (Hc : forall g gross,
             toLowerCase (recipient g) = recipient g -> toLowerCase (grantor g) = grantor g ->
             status g = "completed" ->
             grossAmount g = BigInt_toString gross ->
             fee g = BigInt_toString (fee_of gross) ->
             netAmount g = BigInt_toString (net_of gross) ->
             grossAmountFormatted g = formatETH gross ->
             feeFormatted g = formatETH (fee_of gross) ->
             netAmountFormatted g = formatETH (net_of gross) ->
             record_consistent g).
  { intros g gross H1 H2 H3 H4 H5 H6 H7 H8 H9. unfold record_consistent.
    rewrite H4, H5, H6, H7, H8, H9, !amount_value_toString, BigInt_toString_roundtrip.
    repeat split; assumption. }
  destruct o as [req w|req w]; simpl.
  - destruct (post_grants req w st) as [resp st'] eqn:E. simpl.
    apply post_grants_inv in E as [(Hs & Hg & Hm)|E]; [left; split; [lia|auto]|right].
    destruct E as (st0 & rcp & txHash & gross & txFrom & hash & st1 & Hgate & _ & _ & _
                   & _ & Hfund & Hdist & -> & ->).
    pose proof (requireWhitelist_ledger "address" req w st) as (Hg0 & _).
    rewrite Hgate in Hg0. simpl in Hg0.
    pose proof (distribute_ledger (isMock req) rcp (net_of gross) w st0) as (Hg1 & _).
    rewrite Hdist in Hg1. simpl in Hg1.
    eexists _, gross. rewrite record_grant_grants, Hg1, Hg0, Hfund.
    do 6 (split; [reflexivity|]).
    apply (Hc _ gross); cbn [new_grant recipient grantor status grossAmount fee netAmount
      grossAmountFormatted feeFormatted netAmountFormatted];
      rewrite ?toLowerCase_idem; reflexivity.
  - destruct (post_test_e2e req w st) as [resp st'] eqn:E. simpl.
    apply post_test_e2e_inv in E as [(Hs & Hg & Hm)|E]; [left; split; [lia|auto]|right].
    destruct E as (txHash & tx & hash & steps & summary & _ & Htx & _ & -> & ->).
    eexists _, (tx_value tx). rewrite Htx.
    do 6 (split; [reflexivity|]).
    apply (Hc _ (tx_value tx)); cbn [e2e_grant recipient grantor status grossAmount fee netAmount
      grossAmountFormatted feeFormatted netAmountFormatted];
      rewrite ?toLowerCase_idem; reflexivity.
Qed.

Lemma operation_keeps_ids (o : operation) (st : state) :
  keys_are_ids st /\ ids_unique st ->
  keys_are_ids (snd (apply_operation o st)) /\ ids_unique (snd (apply_operation o st)).
Proof.
  intros [Hk Hu]. unfold keys_are_ids, ids_unique in *.
  destruct (operation_effect o st) as [(_ & -> & _)|(g & gross & _ & -> & _ & Hid & _)]; [auto|].
  split; [|now apply Map_set_keys_NoDup].
  apply Map_set_pairs; [exact Hk|]. simpl. now rewrite Hid.
Qed.

Lemma reachable_ids (ops : list operation) (st : state) :
  keys_are_ids st /\ ids_unique st ->
  keys_are_ids (run_operations ops st) /\ ids_unique (run_operations ops st).
Proof.
  revert st. induction ops as [|o ops IH]; intros st H; simpl; [exact H|].
  apply IH. now apply operation_keeps_ids.
Qed.

Lemma initial_ids : keys_are_ids initial_state /\ ids_unique initial_state.
Proof. split; constructor. Qed.

Lemma record_kept (ops : list operation) (st : state) (i : string) (g : grant) :
  fresh_ids ops st -> Map_get i (grants st) = Some g ->
  Map_get i (grants (run_operations ops st)) = Some g.
Proof.
  revert st. induction ops as [|o ops IH]; intros st Hf Hi; simpl; [exact Hi|].
  destruct Hf as [Ho Hf]. apply IH; [exact Hf|].
  destruct (operation_effect o st) as [(_ & -> & _)|(g' & gross & _ & -> & _)]; [exact Hi|].
  rewrite Map_get_set_ne; [exact Hi|].
  intros <-. destruct o; simpl in Ho, Hi; congruence.
Qed.

(** X1. A grant recorded by [POST /grants] or [POST /test/e2e] is returned
    by [GET /grants/:id] under the identifier of the response, with the very
    record the response showed, and stays so after any further requests that
    draw fresh identifiers. *)
Theorem recorded_grant_stays_retrievable (o : operation) (ops : list operation) (st : state) :
  fst (fst (apply_operation o st)) = success_status o ->
  fresh_ids ops (snd (apply_operation o st)) ->
  exists g : grant,
    id g = operation_id o /\
    property "grant" (fst (apply_operation o st)) = Some (grant_json g) /\
    get_grant (id g) (snd (apply_operation o st)) = (200, grant_json g) /\
    get_grant (id g) (run_operations ops (snd (apply_operation o st))) = (200, grant_json g).
Proof.
  intros Hs Hf.
  destruct (operation_effect o st) as [(Hn & _)|(g & gross & _ & Hg & Hp & Hid & _)];
    [contradiction|].
  assert (Hget : Map_get (id g) (grants (snd (apply_operation o st))) = Some g).
  { rewrite Hg, Hid. apply Map_get_set. }
  exists g. repeat split; [exact Hid|exact Hp| |]; unfold get_grant.
  - now rewrite Hget.
  - now rewrite (record_kept ops _ _ g Hf Hget).
Qed.

(** X2. On every ledger the server can reach, identifiers identify records:
    each stored record is what [GET /grants/:id] returns for its own [id],
    and the route answers 404 [Grant not found] exactly for the identifiers
    that no stored record carries. *)
Theorem grant_lookup_by_id (ops : list operation) (grantId : string) :
  let st := run_operations ops initial_state in
  (forall g, g ∈ Map_values (grants st) -> get_grant (id g) st = (200, grant_json g)) /\
  ((forall g, g ∈ Map_values (grants st) -> id g <> grantId) <->
   get_grant grantId st = (404, error_body "Grant not found")).
Proof.
  cbv zeta. destruct (reachable_ids ops initial_state initial_ids) as [Hk Hu].
  set (st := run_operations ops initial_state) in *.
  unfold keys_are_ids, ids_unique in *. rewrite Forall_forall in Hk.
  assert (Hin : forall g, g ∈ Map_values (grants st) -> (id g, g) ∈ grants st).
  { intros g Hg. apply list_elem_of_fmap in Hg as ([k g'] & -> & Hg).
    pose proof (Hk _ Hg) as Hkg. simpl in Hkg |- *. now rewrite <- Hkg. }
  split; [|split].
  - intros g Hg. unfold get_grant. now rewrite (Map_get_of_elem _ _ _ Hu (Hin g Hg)).
  - intros Hno. unfold get_grant. destruct (Map_get grantId (grants st)) as [g|] eqn:E; [|reflexivity].
    apply Map_get_elem in E. pose proof (Hk _ E) as Hkg. simpl in Hkg.
    contradiction (Hno g); [|now symmetry]. apply list_elem_of_fmap. now exists (grantId, g).
  - unfold get_grant. destruct (Map_get grantId (grants st)) as [g|] eqn:E; [discriminate|].
    intros _ g Hg Heq. apply Map_get_None in E. apply E.
    apply list_elem_of_fmap. exists (id g, g). split; [now rewrite Heq|now apply Hin].
Qed.

Lemma operation_keeps_consistent (o : operation) (st : state) :
  Forall record_consistent (Map_values (grants st)) ->
  Forall record_consistent (Map_values (grants (snd (apply_operation o st)))).
Proof.
  intros H.
  destruct (operation_effect o st) as [(_ & -> & _)|(g & gross & _ & -> & _ & _ & _ & _ & Hc)];
    [exact H|].
  now apply Map_set_Forall.
Qed.

(** X3. Every record on a ledger the server can reach is consistent: the
    addresses are in lower case, the status is [completed], the gross amount
    is a readable integer, fee and net amount are the 5% split of it (so
    they add up to it), and the three formatted fields are [formatETH] of
    the three amounts. *)
Theorem stored_records_consistent (ops : list operation) :
  Forall (fun g => record_consistent g /\
                   amount_value (fee g) + amount_value (netAmount g)
                   = amount_value (grossAmount g))
         (Map_values (grants (run_operations ops initial_state))).
Proof.
  assert (H : Forall record_consistent (Map_values (grants (run_operations ops initial_state)))).
  { assert (H0 : Forall record_consistent (Map_values (grants initial_state))) by constructor.
    revert H0. generalize initial_state.
    induction ops as [|o ops IH]; intros st H0; simpl; [exact H0|].
    apply IH. now apply operation_keeps_consistent. }
  eapply Forall_impl; [exact H|]. intros g Hc. split; [exact Hc|].
  destruct Hc as (_ & _ & _ & _ & -> & -> & _).
  rewrite !amount_value_toString. unfold net_of. lia.
Qed.

(** ** Money leaves the treasury only for a verified payment *)

Lemma verify_funding_next (w : world) (f : Z) (from : string) :
  verify_funding w = Next (f, from) ->
  exists tx, funding_verified w tx /\ f = tx_value tx /\ from = tx_from tx.
Proof.
  unfold verify_funding, funding_verified.
  destruct (chain_tx w) as [[tx|]|e]; simpl; try discriminate.
  destruct (chain_receipt w) as [[rc|]|e]; simpl; try discriminate.
  destruct (receipt_status rc =? 1) eqn:Hrc; simpl; [|discriminate].
  case_bool_decide as Hto; simpl; [|discriminate].
  intros [= <- <-]. exists tx. apply Z.eqb_eq in Hrc. eauto 10.
Qed.

Lemma distribute_live_next (to : string) (v : Z) (w : world) (st st1 : state) (hash : string) :
  distribute false to v w st = (Next hash, st1) ->
  wallet w = Ok true /\ send_result w = Ok hash /\ st1 = log_transfer to v st.
Proof.
  unfold distribute. destruct (wallet w) as [[|]|e]; try discriminate.
  destruct (send_result w) as [h|e]; simpl; [|discriminate].
  intros [= <- <-]. auto.
Qed.

Lemma distribute_transfers (m : bool) (to : string) (v : Z) (w : world) (st : state) :
  transfers (snd (distribute m to v w st)) = transfers st \/
  (m = false /\ wallet w = Ok true /\
   transfers (snd (distribute m to v w st)) = transfers st ++ [(to, v)]).
Proof.
  unfold distribute. destruct m; [now left|].
  destruct (wallet w) as [[|]|e]; simpl; auto.
Qed.

Lemma post_grants_transfers (req : request) (w : world) (st : state) :
  transfers (snd (post_grants req w st)) = transfers st \/
  (exists tx recipient,
      isMock req = false /\ funding_verified w tx /\ wallet w = Ok true /\
      field (body req) "recipient" = Some recipient /\
      transfers (snd (post_grants req w st)) = transfers st ++ [(recipient, net_of (tx_value tx))]).
Proof.
  unfold post_grants.
  pose proof (requireWhitelist_ledger "address" req w st) as (_ & _ & Ht0).
  destruct (requireWhitelist "address" req w st) as [[r|[]] st0]; simpl in Ht0; [now left|].
  rewrite <- Ht0. clear Ht0 st. unfold post_grants_handler.
  destruct (grants_precheck req st0) as [r|]; [now left|].
  destruct (field (body req) "recipient") as [rcp|]; [|now left].
  destruct (field (body req) "txHash") as [txHash|]; [|now left].
  destruct (funding_of req w) as [[gross txFrom]|r|e] eqn:Hfund; simpl; auto.
  pose proof (distribute_transfers (isMock req) rcp (net_of gross) w st0) as Hd.
  destruct (distribute (isMock req) rcp (net_of gross) w st0) as [[hash|r|e] st1];
    simpl in Hd |- *.
  all: destruct Hd as [Hd|(Hm & Hw & Hd)]; [now left|right].
  all: unfold funding_of in Hfund; rewrite Hm in Hfund.
  all: apply verify_funding_next in Hfund as (tx & Hv & -> & ->).
  all: exists tx, rcp; auto.
Qed.

Lemma post_test_e2e_transfers (req : request) (w : world) (st : state) :
  transfers (snd (post_test_e2e req w st)) = transfers st \/
  (exists tx to,
      funding_verified w tx /\ wallet w = Ok true /\
      transfer_target (PostTestE2E req w) = Some to /\
      transfers (snd (post_test_e2e req w st)) = transfers st ++ [(to, net_of (tx_value tx))]).
Proof.
  unfold post_test_e2e, funding_verified, transfer_target.
  destruct (field (body req) "txHash") as [txHash|]; [|now left].
  destruct (chain_tx w) as [[tx|]|e]; simpl; auto.
  destruct (chain_receipt w) as [[rc|]|e]; simpl; auto.
  destruct (receipt_status rc =? 1) eqn:Hrc; simpl; auto.
  case_bool_decide as Hto; simpl; auto.
  apply Z.eqb_eq in Hrc.
  destruct (wallet w) as [[|]|e]; simpl; auto.
  right. exists tx. eexists. split; [eauto 10|]. split; [reflexivity|]. split; [reflexivity|].
  destruct (send_result w); reflexivity.
Qed.

Lemma operation_transfers (o : operation) (st : state) :
  transfers (snd (apply_operation o st)) = transfers st \/
  exists to v, transfers (snd (apply_operation o st)) = transfers st ++ [(to, v)].
Proof.
  destruct o as [req w|req w]; simpl.
  - destruct (post_grants_transfers req w st) as [H|(tx & to & H)]; [now left|right].
    exists to, (net_of (tx_value tx)). tauto.
  - destruct (post_test_e2e_transfers req w st) as [H|(tx & to & H)]; [now left|right].
    exists to, (net_of (tx_value tx)). tauto.
Qed.

(** X4. Neither route hands a transfer to the wallet unless the chain has
    confirmed the funding transaction as a successful payment to the treasury
    and the wallet is configured; then it is one transfer, of the net amount
    of that transaction's value, to the recipient named in the request (for
    [POST /test/e2e] the treasury itself when none is named).  A request in
    mock mode never gets that far. *)
Theorem transfer_only_after_verification (o : operation) (st : state) :
  transfers (snd (apply_operation o st)) = transfers st \/
  (exists tx to,
      is_mock_operation o = false /\
      funding_verified (operation_world o) tx /\
      wallet (operation_world o) = Ok true /\
      transfer_target o = Some to /\
      transfers (snd (apply_operation o st)) = transfers st ++ [(to, net_of (tx_value tx))]).
Proof.
  destruct o as [req w|req w]; simpl.
  - destruct (post_grants_transfers req w st) as [H|(tx & to & H)]; [now left|right].
    exists tx, to. tauto.
  - destruct (post_test_e2e_transfers req w st) as [H|(tx & to & H)]; [now left|right].
    exists tx, to. simpl in H. tauto.
Qed.

(** X5. What a 201 of [POST /grants] means outside mock mode: the funding
    transaction is confirmed as a successful payment to the treasury, the
    stored record carries its value as gross amount, the recipient in
    lower case and the hash of the transfer, and exactly one transfer was
    handed to the wallet: the net amount, to the recipient as written in the
    request.  The grantor of the record is the [grantor] field of the request
    when there is one, whoever sent the transaction, and the sender
    otherwise. *)
Theorem live_grant_is_backed (req : request) (w : world) (st : state) :
  isMock req = false ->
  fst (fst (post_grants req w st)) = 201 ->
  exists tx hash rcp g,
    funding_verified w tx /\ send_result w = Ok hash /\
    field (body req) "recipient" = Some rcp /\
    transfers (snd (post_grants req w st)) = transfers st ++ [(rcp, net_of (tx_value tx))] /\
    Map_get (uuid_id w) (grants (snd (post_grants req w st))) = Some g /\
    grossAmount g = BigInt_toString (tx_value tx) /\
    netAmount g = BigInt_toString (net_of (tx_value tx)) /\
    recipient g = toLowerCase rcp /\
    distributionTxHash g = hash /\
    mock g = false /\
    grantor g = toLowerCase (match field (body req) "grantor" with
                             | Some a => a
                             | None => tx_from tx
                             end).
Proof.
  intros Hm Hs. destruct (post_grants req w st) as [resp st'] eqn:E. simpl in Hs |- *.
  apply post_grants_inv in E as [(Hs' & _)|E]; [lia|].
  destruct E as (st0 & rcp & txHash & gross & txFrom & hash & st1 & Hgate & Hr & _ & _
                 & _ & Hfund & Hdist & -> & ->).
  unfold funding_of in Hfund. rewrite Hm in Hfund, Hdist.
  apply verify_funding_next in Hfund as (tx & Hv & -> & ->).
  apply distribute_live_next in Hdist as (Hw & Hsend & ->).
  pose proof (requireWhitelist_ledger "address" req w st) as (_ & _ & Ht0).
  rewrite Hgate in Ht0. simpl in Ht0.
  exists tx, hash, rcp. eexists. do 3 (split; [assumption|]).
  split; [cbn [record_grant log_transfer transfers]; now rewrite Ht0|].
  split; [rewrite record_grant_grants; apply Map_get_set|].
  cbn [new_grant grossAmount netAmount recipient distributionTxHash mock grantor].
  rewrite Hm. repeat split; reflexivity.
Qed.

(** ** The ledger only grows *)

Lemma operation_grows (o : operation) (st : state) :
  (length (grants st) <= length (grants (snd (apply_operation o st)))
   <= length (grants st) + 1)%nat /\
  (forall i, is_Some (Map_get i (grants st)) ->
             is_Some (Map_get i (grants (snd (apply_operation o st))))) /\
  (exists sent, transfers (snd (apply_operation o st)) = transfers st ++ sent /\
                (length sent <= 1)%nat) /\
  (forall a s, grantors st !! a = Some s ->
     exists s', grantors (snd (apply_operation o st)) !! a = Some s' /\
                totalGrants s <= totalGrants s').
Proof.
  split; [|split; [|split]].
  - destruct (operation_effect o st) as [(_ & -> & _)|(g & gross & _ & -> & _)]; [lia|].
    apply Map_set_length.
  - intros i Hi.
    destruct (operation_effect o st) as [(_ & -> & _)|(g & gross & _ & -> & _)]; [exact Hi|].
    now apply Map_set_keeps.
  - destruct (operation_transfers o st) as [->|(to & v & ->)].
    + exists []. split; [now rewrite app_nil_r|simpl; lia].
    + eexists. split; [reflexivity|]. simpl. lia.
  - intros a s Ha. destruct o as [req w|req w]; simpl.
    + destruct (post_grants req w st) as [resp st'] eqn:E. simpl.
      apply post_grants_inv in E as [(_ & _ & ->)|E]; [exists s; split; [exact Ha|lia]|].
      destruct E as (st0 & rcp & txHash & gross & txFrom & hash & st1 & Hgate & _ & _ & _
                     & _ & _ & Hdist & _ & ->).
      pose proof (requireWhitelist_ledger "address" req w st) as (_ & Hs0 & _).
      rewrite Hgate in Hs0. simpl in Hs0.
      pose proof (distribute_ledger (isMock req) rcp (net_of gross) w st0) as (_ & Hs1 & _).
      rewrite Hdist in Hs1. simpl in Hs1.
      unfold record_grant. cbn [grantors]. rewrite Hs1, Hs0.
      set (g := new_grant req w rcp txHash gross txFrom hash).
      destruct (decide (grantor g = a)) as [->|Hne].
      * rewrite lookup_insert_eq, Ha. eexists. split; [reflexivity|]. simpl. lia.
      * rewrite lookup_insert_ne by exact Hne. exists s. split; [exact Ha|lia].
    + destruct (post_test_e2e req w st) as [resp st'] eqn:E. simpl.
      apply post_test_e2e_inv in E as [(_ & _ & ->)|E]; [exists s; split; [exact Ha|lia]|].
      destruct E as (txHash & tx & hash & steps & summary & _ & _ & _ & _ & ->).
      exists s. split; [exact Ha|lia].
Qed.

(** X6. Nothing is ever taken back: along any run of requests, a stored
    identifier stays stored, the number of records never decreases and grows
    by at most one per request, the transfers made so far stay on the trace
    with at most one more per request, and a grantor's statistics stay, its
    count of grants never decreasing. *)
Theorem ledger_only_grows (ops : list operation) (st : state) :
  (length (grants st) <= length (grants (run_operations ops st))
   <= length (grants st) + length ops)%nat /\
  (forall i, is_Some (Map_get i (grants st)) ->
             is_Some (Map_get i (grants (run_operations ops st)))) /\
  (exists sent, transfers (run_operations ops st) = transfers st ++ sent /\
                (length sent <= length ops)%nat) /\
  (forall a s, grantors st !! a = Some s ->
     exists s', grantors (run_operations ops st) !! a = Some s' /\
                totalGrants s <= totalGrants s').
Proof.
  revert st. induction ops as [|o ops IH]; intros st; simpl.
  - split; [lia|]. split; [auto|]. split; [exists []; split; [now rewrite app_nil_r|simpl; lia]|].
    intros a s Ha. exists s. split; [exact Ha|lia].
  - destruct (operation_grows o st) as (Hl & Hi & (s1 & Ht & Hs1) & Hg).
    destruct (IH (snd (apply_operation o st))) as (Hl' & Hi' & (s2 & Ht' & Hs2) & Hg').
    split; [lia|]. split; [auto|]. split.
    + exists (s1 ++ s2). rewrite Ht', Ht, <- app_assoc. split; [reflexivity|].
      rewrite length_app. lia.
    + intros a s Ha. destruct (Hg a s Ha) as (s' & Ha' & Hle).
      destruct (Hg' a s' Ha') as (s'' & Ha'' & Hle'). exists s''. split; [exact Ha''|lia].
Qed.

(** ** Grantor statistics *)

(** X7. A successful [POST /grants] counts one more grant for the grantor
    of the new record and adds the gross amount to its total, starting from
    zero for a grantor not seen before; the statistics of every other
    address stay as they were. *)
Theorem grant_updates_grantor_stats (req : request) (w : world) (st : state) :
  fst (fst (post_grants req w st)) = 201 ->
  exists g gross,
    Map_get (uuid_id w) (grants (snd (post_grants req w st))) = Some g /\
    funding_amount (PostGrants req w) = Some gross /\
    grantors (snd (post_grants req w st)) !! grantor g
    = Some (match grantors st !! grantor g with
            | Some s => {| totalGrants := totalGrants s + 1; totalAmount := totalAmount s + gross |}
            | None => {| totalGrants := 1; totalAmount := gross |}
            end) /\
    forall a, a <> grantor g -> grantors (snd (post_grants req w st)) !! a = grantors st !! a.
Proof.
  intros Hs. destruct (post_grants req w st) as [resp st'] eqn:E. simpl in Hs |- *.
  apply post_grants_inv in E as [(Hs' & _)|E]; [lia|].
  destruct E as (st0 & rcp & txHash & gross & txFrom & hash & st1 & Hgate & _ & _ & _
                 & _ & Hfund & Hdist & _ & ->).
  pose proof (requireWhitelist_ledger "address" req w st) as (_ & Hs0 & _).
  rewrite Hgate in Hs0. simpl in Hs0.
  pose proof (distribute_ledger (isMock req) rcp (net_of gross) w st0) as (_ & Hs1 & _).
  rewrite Hdist in Hs1. simpl in Hs1.
  eexists _, gross. split; [rewrite record_grant_grants; apply Map_get_set|].
  split; [now rewrite Hfund|].
  unfold record_grant. cbn [grantors]. rewrite Hs1, Hs0. split.
  - rewrite lookup_insert_eq. now destruct (grantors st !! _).
  - intros a Ha. now rewrite lookup_insert_ne.
Qed.






(** ** Funding hashes through [POST /grants] *)

Lemma NoDup_filter_one {A : Type} (f : A -> string) (h : string) (l : list A) :
  NoDup (map f l) -> (length (List.filter (fun x => String.eqb (f x) h) l) <= 1)%nat.
Proof.
  induction l as [|a l IH]; simpl; intros Hn; [lia|].
  apply NoDup_cons in Hn as [Ha Hn]. destruct (String.eqb_spec (f a) h) as [Hh|Hh]; [|auto].
  assert (Hnil : List.filter (fun x => String.eqb (f x) h) l = []).
  { destruct (List.filter _ l) as [|b l'] eqn:E; [reflexivity|].
    assert (Hb : In b (List.filter (fun x => String.eqb (f x) h) l)) by (rewrite E; now left).
    apply List.filter_In in Hb as [Hb Hfb]. apply String.eqb_eq in Hfb.
    contradiction Ha. rewrite Hh, <- Hfb. apply list_elem_of_fmap. exists b.
    split; [reflexivity|]. now apply list_elem_of_In. }
  rewrite Hnil. simpl. lia.
Qed.

(** X9. Through [POST /grants] alone, one after the other, a funding
    transaction pays for at most one grant: no two stored records share a
    funding hash (compared without regard to letter case), whatever the
    requests are and whatever the chain answers. *)
Theorem funding_pays_once (ops : list operation) (st : state) (txHash : string) :
  grants_only ops -> unique_funding st ->
  unique_funding (run_operations ops st) /\
  (length (funded_by txHash (run_operations ops st)) <= 1)%nat.
Proof.
  intros Hg Hu.
  assert (H : unique_funding (run_operations ops st)).
  { revert st Hu. induction Hg as [|o ops Ho Hg IH]; intros st Hu; simpl; [exact Hu|].
    destruct o as [req w|req w]; [|contradiction].
    apply IH. now apply post_grants_keeps_unique. }
  split; [exact H|]. unfold funded_by, same_funding_tx.
  apply (NoDup_filter_one (fun g => toLowerCase (fundingTxHash g))). exact H.
Qed.

(** ** Mock mode *)

Lemma fetchWhitelist_local (w w' : world) (st : state) :
  clock w = clock w' -> whitelist_fetch w = whitelist_fetch w' ->
  fetchWhitelist w st = fetchWhitelist w' st.
Proof. unfold fetchWhitelist. now intros -> ->. Qed.

Lemma requireWhitelist_local (f : string) (req : request) (w w' : world) (st : state) :
  clock w = clock w' -> whitelist_fetch w = whitelist_fetch w' ->
  requireWhitelist f req w st = requireWhitelist f req w' st.
Proof.
  intros Hc Hf. unfold requireWhitelist. now rewrite (fetchWhitelist_local w w' st Hc Hf).
Qed.

(** X10. A request to [POST /grants] in mock mode touches no chain: its
    answer and the ledger it leaves are the same whatever the provider, the
    wallet and the transfer would have answered, and no transfer is handed
    to the wallet. *)
Theorem mock_grant_touches_no_chain (req : request) (w w' : world) (st : state) :
  isMock req = true -> same_local_answers w w' ->
  post_grants req w st = post_grants req w' st /\
  transfers (snd (post_grants req w st)) = transfers st.
Proof.
  intros Hm (Hc & Hf & Hu & Hi & Ht). split.
  - unfold post_grants. rewrite (requireWhitelist_local "address" req w w' st Hc Hf).
    destruct (requireWhitelist "address" req w' st) as [[r|[]] st0]; [reflexivity|].
    unfold post_grants_handler, funding_of, distribute, complete_grant, new_grant.
    rewrite Hm, Hu, Hi, Ht. reflexivity.
  - destruct (post_grants_transfers req w st) as [H|(tx & rcp & H & _)]; [exact H|congruence].
Qed.

Lemma mock_request_one_step (req : request) (w : world) (st : state) :
  isMock req = true ->
  thread_step (Arrived req w) st
  = (Finished (fst (post_grants req w st)), snd (post_grants req w st)).
Proof.
  intros Hm. unfold thread_step, post_grants, post_grants_handler, after_funding.
  destruct (requireWhitelist "address" req w st) as [[r|[]] st0]; [reflexivity|].
  destruct (grants_precheck req st0) as [r|]; [reflexivity|].
  destruct (field (body req) "recipient") as [rcp|]; [|reflexivity].
  destruct (field (body req) "txHash") as [txHash|]; [|reflexivity].
  rewrite Hm. destruct (funding_of req w) as [[gross txFrom]|r|e]; reflexivity.
Qed.

Lemma mock_pool_step (i : nat) (st : state) (pool : list thread) :
  Forall mock_or_finished pool -> unique_funding st ->
  unique_funding (fst (schedule_step i (st, pool))) /\
  Forall mock_or_finished (snd (schedule_step i (st, pool))) /\
  length (snd (schedule_step i (st, pool))) = length pool /\
  transfers (fst (schedule_step i (st, pool))) = transfers st.
Proof.
  intros Hp Hu. unfold schedule_step.
  destruct (pool !! i) as [t|] eqn:Hi; [|simpl; auto].
  pose proof (proj1 (Forall_lookup _ _) Hp i t Hi) as Ht.
  destruct t as [req w| | |r]; simpl in Ht; try contradiction.
  - rewrite (mock_request_one_step req w st Ht). simpl.
    split; [now apply post_grants_keeps_unique|].
    split; [apply Forall_insert; [exact Hp|exact I]|].
    split; [apply length_insert|].
    destruct (post_grants_transfers req w st) as [H|(tx & rcp & H & _)]; [exact H|congruence].
  - simpl. split; [exact Hu|]. split; [apply Forall_insert; [exact Hp|exact I]|].
    split; [apply length_insert|reflexivity].
Qed.

(** X11. Requests in mock mode cannot race: the handler has no [await]
    between its duplicate check and [grants.set], so however the scheduler
    interleaves a pool of mock requests, funding hashes stay unique, every
    request is either untouched or answered, and no transfer is made. *)
Theorem mock_requests_never_race (sched : list nat) (st : state) (pool : list thread) :
  Forall mock_or_finished pool -> unique_funding st ->
  unique_funding (fst (run_schedule sched (st, pool))) /\
  Forall mock_or_finished (snd (run_schedule sched (st, pool))) /\
  transfers (fst (run_schedule sched (st, pool))) = transfers st.
Proof.
  revert st pool. unfold run_schedule.
  induction sched as [|i sched IH]; intros st pool Hp Hu; cbn [fold_left]; [auto|].
  destruct (mock_pool_step i st pool Hp Hu) as (Hu' & Hp' & _ & Ht').
  destruct (schedule_step i (st, pool)) as [st' pool']. simpl in Hu', Hp', Ht'.
  destruct (IH st' pool' Hp' Hu') as (H1 & H2 & H3).
  split; [exact H1|]. split; [exact H2|]. now rewrite H3.
Qed.

(** X12. The race is general: whenever two live requests for the same
    funding hash both pass the gate and the duplicate check on arrival, their
    funding verifies and their transfers go through, the alternating schedule
    answers both with 201, stores two records for that hash and hands two
    transfers to the wallet; funding hashes are no longer unique. *)
Theorem race_breaks_uniqueness (reqA reqB : request) (wA wB : world) (st st1 st2 : state)
    (rA hA rB hB : string) (fA fB : Z) (fromA fromB sentA sentB : string) :
  isMock reqA = false -> isMock reqB = false ->
  thread_step (Arrived reqA wA) st = (AwaitFunding reqA wA rA hA, st1) ->
  thread_step (Arrived reqB wB) st1 = (AwaitFunding reqB wB rB hB, st2) ->
  funding_of reqA wA = Next (fA, fromA) -> funding_of reqB wB = Next (fB, fromB) ->
  wallet wA = Ok true -> wallet wB = Ok true ->
  send_result wA = Ok sentA -> send_result wB = Ok sentB ->
  toLowerCase hA = toLowerCase hB ->
  uuid_id wA <> uuid_id wB ->
  Map_get (uuid_id wA) (grants st) = None -> Map_get (uuid_id wB) (grants st) = None ->
  let cfg := run_schedule [0; 1; 0; 1; 0; 1]%nat (st, [Arrived reqA wA; Arrived reqB wB]) in
  Forall (fun t => exists r, t = Finished r /\ fst r = 201) (snd cfg) /\
  length (funded_by hA (fst cfg)) = (length (funded_by hA st) + 2)%nat /\
  ~ unique_funding (fst cfg) /\
  transfers (fst cfg) = transfers st ++ [(rA, net_of fA); (rB, net_of fB)].
Proof.
  intros HmA HmB HA HB HfA HfB HwA HwB HsA HsB Hh Hid HfreshA HfreshB.
  pose proof (alternating_records_both reqA reqB wA wB st st1 st2 rA hA rB hB fA fB
                fromA fromB sentA sentB HmA HmB HA HB HfA HfB HwA HwB HsA HsB) as H.
  cbv zeta in H |- *. destruct H as (Hpool & Hgrants & Htransfers).
  set (cfg := run_schedule _ _) in *.
  assert (Hst1 : grants st1 = grants st /\ transfers st1 = transfers st).
  { unfold thread_step in HA.
    pose proof (requireWhitelist_ledger "address" reqA wA st) as (Hg & _ & Ht).
    destruct (requireWhitelist "address" reqA wA st) as [[r|[]] st0]; [discriminate|].
    simpl in Hg, Ht. destruct (grants_precheck reqA st0); [discriminate|].
    destruct (field (body reqA) "recipient"); [|discriminate].
    destruct (field (body reqA) "txHash"); [|discriminate].
    rewrite HmA in HA. injection HA as _ _ <-. auto. }
  assert (Hst2 : grants st2 = grants st1 /\ transfers st2 = transfers st1).
  { unfold thread_step in HB.
    pose proof (requireWhitelist_ledger "address" reqB wB st1) as (Hg & _ & Ht).
    destruct (requireWhitelist "address" reqB wB st1) as [[r|[]] st0]; [discriminate|].
    simpl in Hg, Ht. destruct (grants_precheck reqB st0); [discriminate|].
    destruct (field (body reqB) "recipient"); [|discriminate].
    destruct (field (body reqB) "txHash"); [|discriminate].
    rewrite HmB in HB. injection HB as _ _ <-. auto. }
  destruct Hst1 as [Hg1 Ht1]. destruct Hst2 as [Hg2 Ht2].
  set (gA := new_grant reqA wA rA hA fA fromA sentA) in *.
  set (gB := new_grant reqB wB rB hB fB fromB sentB) in *.
  assert (Hvalues : Map_values (grants (fst cfg)) = Map_values (grants st) ++ [gA; gB]).
  { rewrite Hgrants, Hg2, Hg1. change (id gA) with (uuid_id wA). change (id gB) with (uuid_id wB).
    rewrite (Map_set_fresh _ gA _ HfreshA), Map_set_fresh.
    - unfold Map_values. rewrite !map_app, <- app_assoc. reflexivity.
    - rewrite <- (Map_set_fresh _ gA _ HfreshA), Map_get_set_ne; [exact HfreshB|exact Hid]. }
  split; [|split; [|split]].
  - rewrite Hpool. repeat constructor; eexists; split; reflexivity.
  - unfold funded_by. rewrite Hvalues, List.filter_app, length_app. f_equal.
    unfold same_funding_tx. simpl.
    change (fundingTxHash gA) with hA. change (fundingTxHash gB) with hB.
    rewrite <- Hh, String.eqb_refl. reflexivity.
  - unfold unique_funding. rewrite Hvalues, map_app. simpl.
    change (fundingTxHash gA) with hA. change (fundingTxHash gB) with hB. rewrite Hh.
    intros Hn. apply NoDup_app in Hn as (_ & _ & Hn). apply NoDup_cons in Hn as [Hn _].
    apply Hn. apply elem_of_cons. now left.
  - now rewrite Htransfers, Ht2, Ht1.
Qed.

(** ** The whitelist *)

Lemma fetchWhitelist_refetch (w : world) (st : state) :
  cache_expired w st ->
  fetchWhitelist w st
  = match whitelist_fetch w ≫= entry_addresses with
    | Some l => (list_to_set l, set_whitelist (list_to_set l) (clock w) st)
    | None => (default ∅ (_whitelistCache st), st)
    end.
Proof.
  unfold cache_expired, fetchWhitelist. intros H.
  destruct (_whitelistCache st) as [c|]; [|reflexivity].
  destruct (clock w - _whitelistCacheTime st <? WHITELIST_CACHE_TTL) eqn:E; [|reflexivity].
  apply Z.ltb_lt in E. lia.
Qed.

(** X13. The whitelist is cached for five minutes: after a fetch that
    succeeded, every call less than [WHITELIST_CACHE_TTL] milliseconds later
    answers with the set fetched then, without looking at the source, so a
    change of the whitelist is not seen before that; a call from that age on
    takes the new list when the fetch succeeds, and falls back to the old set
    when it fails. *)
Theorem whitelist_cached_for_ttl (w1 w2 : world) (st : state) (l : list string) :
  cache_expired w1 st ->
  whitelist_fetch w1 ≫= entry_addresses = Some l ->
  fst (fetchWhitelist w1 st) = list_to_set l /\
  (clock w2 - clock w1 < WHITELIST_CACHE_TTL ->
   fetchWhitelist w2 (snd (fetchWhitelist w1 st))
   = (list_to_set l, snd (fetchWhitelist w1 st))) /\
  (WHITELIST_CACHE_TTL <= clock w2 - clock w1 ->
   forall l2, whitelist_fetch w2 ≫= entry_addresses = Some l2 ->
              fst (fetchWhitelist w2 (snd (fetchWhitelist w1 st))) = list_to_set l2) /\
  (fetch_failed w2 ->
   fst (fetchWhitelist w2 (snd (fetchWhitelist w1 st))) = list_to_set l).
Proof.
  intros Hexp Hl. rewrite (fetchWhitelist_refetch w1 st Hexp), Hl. cbn [fst snd].
  split; [reflexivity|]. split; [|split].
  - intros Hlt. unfold fetchWhitelist. cbn [set_whitelist _whitelistCache _whitelistCacheTime].
    destruct (clock w2 - clock w1 <? WHITELIST_CACHE_TTL) eqn:E; [reflexivity|].
    apply Z.ltb_ge in E. lia.
  - intros Hge l2 Hl2. rewrite fetchWhitelist_refetch by exact Hge. now rewrite Hl2.
  - intros Hfail. unfold fetch_failed in Hfail. unfold fetchWhitelist.
    cbn [set_whitelist _whitelistCache _whitelistCacheTime]. rewrite Hfail.
    now destruct (clock w2 - clock w1 <? WHITELIST_CACHE_TTL).
Qed.




(** X15. One malformed entry spoils the whole whitelist document: when an
    entry is an object without a usable [address], the fetch counts as
    failed, nothing is cached, and the call answers with the set cached
    before, stale as it is, or with the empty set when there is none, in
    which case [POST /grants] admits nobody. *)
Theorem malformed_entry_fails_fetch (req : request) (w : world) (st : state)
    (data : list whitelist_entry) :
  whitelist_fetch w = Some data ->
  EntryObject None ∈ data \/ EntryObject (Some EmptyString) ∈ data ->
  cache_expired w st ->
  fetch_failed w /\
  fetchWhitelist w st = (default ∅ (_whitelistCache st), st) /\
  (_whitelistCache st = None ->
   fst (fst (post_grants req w st)) = 400 \/ fst (fst (post_grants req w st)) = 403).
Proof.
  intros Hdata Hbad Hexp.
  assert (Hfail : fetch_failed w).
  { unfold fetch_failed. rewrite Hdata. clear Hdata.
    change (entry_addresses data = None).
    induction data as [|e data IH].
    { destruct Hbad as [H|H]; now apply elem_of_nil in H. }
    simpl. destruct (entry_address e) as [a|] eqn:Ha; [|reflexivity].
    rewrite IH; [reflexivity|].
    destruct Hbad as [H|H]; apply elem_of_cons in H as [<-|H]; try discriminate; auto. }
  split; [exact Hfail|]. unfold fetch_failed in Hfail.
  assert (Hfetch : fetchWhitelist w st = (default ∅ (_whitelistCache st), st)).
  { now rewrite (fetchWhitelist_refetch w st Hexp), Hfail. }
  split; [exact Hfetch|]. intros Hnone.
  unfold post_grants, requireWhitelist.
  destruct (candidate_address "address" (body req)) as [addr|]; [|now left].
  rewrite Hfetch, Hnone. simpl. case_decide as Hin; [|now right].
  now apply elem_of_empty in Hin.
Qed.

(** ** Listings *)

(** X16. The edges of [limit] in [GET /grants]: a limit that [parseInt]
    cannot read gives an empty list (the end of the slice is [NaN]), a
    negative limit [-k] drops the last [k] records of the sorted matches
    instead of limiting them, and [total] in the answer is the number of
    records returned, after the limit, not the number of matches. *)
Theorem listing_limit_edges (req : request) (st : state) (limit : string) :
  field (query req) "limit" = Some limit ->
  (parseInt limit = None -> list_grants req st = []) /\
  (forall n, parseInt limit = Some n -> n < 0 ->
     list_grants req st
     = firstn (length (select_grants req st) - Z.to_nat (- n)) (select_grants req st)) /\
  get_grants req st
  = (200, JObj [ ("grants", JArr (map grant_json (list_grants req st)));
                 ("total", JNum (Z.of_nat (length (list_grants req st)))) ]).
Proof.
  intros Hl. unfold list_grants. rewrite Hl. split; [|split].
  - intros ->. unfold slice0. simpl default. cbn [Z.ltb Z.compare].
    now rewrite Z.min_l by lia.
  - intros n -> Hn. unfold slice0. simpl default.
    destruct (n <? 0) eqn:E; [|apply Z.ltb_ge in E; lia]. f_equal. lia.
  - unfold get_grants, grants_body, list_grants. now rewrite Hl.
Qed.






(** ** [POST /test/e2e] beside the statistics *)

(** X19. [POST /test/e2e] is outside the whitelist and outside the
    statistics: it never answers 403, it leaves the whitelist cache and the
    grantor statistics as they were, and [GET /grantors/:address] reports the
    same count and total after it as before, for every address, whatever
    record it stored. *)
Theorem e2e_leaves_statistics (req : request) (w : world) (st : state) (address : string) :
  fst (fst (post_test_e2e req w st)) <> 403 /\
  grantors (snd (post_test_e2e req w st)) = grantors st /\
  _whitelistCache (snd (post_test_e2e req w st)) = _whitelistCache st /\
  _whitelistCacheTime (snd (post_test_e2e req w st)) = _whitelistCacheTime st /\
  property "totalGrants" (get_grantor address (snd (post_test_e2e req w st)))
  = property "totalGrants" (get_grantor address st) /\
  property "totalAmount" (get_grantor address (snd (post_test_e2e req w st)))
  = property "totalAmount" (get_grantor address st).
Proof.
  assert (H : fst (fst (post_test_e2e req w st)) <> 403 /\
              grantors (snd (post_test_e2e req w st)) = grantors st /\
              _whitelistCache (snd (post_test_e2e req w st)) = _whitelistCache st /\
              _whitelistCacheTime (snd (post_test_e2e req w st)) = _whitelistCacheTime st).
  { unfold post_test_e2e.
    destruct (field (body req) "txHash") as [txHash|]; [|simpl; repeat split; lia].
    destruct (chain_tx w) as [[tx|]|e]; try (simpl; repeat split; lia).
    destruct (chain_receipt w) as [[rc|]|e]; try (simpl; repeat split; lia).
    destruct (negb (receipt_status rc =? 1)); [simpl; repeat split; lia|].
    destruct (negb (bool_decide _)); [simpl; repeat split; lia|].
    cbv zeta.
    destruct (wallet w) as [[|]|e]; try (simpl; repeat split; lia).
    destruct (send_result w) as [hash|e]; simpl; repeat split; lia. }
  destruct H as (H1 & H2 & H3 & H4). repeat split; try assumption.
  - unfold get_grantor. rewrite H2. destruct (negb (isAddress address)); [reflexivity|].
    now destruct (grantors st !! toLowerCase address).
  - unfold get_grantor. rewrite H2. destruct (negb (isAddress address)); [reflexivity|].
    now destruct (grantors st !! toLowerCase address).
Qed.

(** ** The fee *)

(** X20. The 5% fee in numbers: fee and net amount always add up to the
    gross amount, and the fee of a negated amount is the negated fee; for a
    gross amount that is not negative the fee is 5% rounded down, so the
    recipient gets at least 95%, amounts below 20 wei pay no fee, and a larger
    funding never gives a smaller fee or a smaller grant. *)
Theorem fee_split_arithmetic (gross gross' : Z) :
  fee_of gross + net_of gross = gross /\
  fee_of (- gross) = - fee_of gross /\
  (0 <= gross ->
   100 * fee_of gross <= 5 * gross < 100 * fee_of gross + 100 /\
   95 * gross <= 100 * net_of gross /\
   (gross < 20 -> fee_of gross = 0 /\ net_of gross = gross) /\
   (gross <= gross' -> fee_of gross <= fee_of gross' /\ net_of gross <= net_of gross')).
Proof.
  split; [unfold net_of; lia|]. split.
  - unfold fee_of, FEE_PERCENT. rewrite Z.mul_opp_l. apply Z.quot_opp_l. lia.
  - intros Hg.
    assert (Hfee : forall g, 0 <= g -> 100 * fee_of g <= 5 * g < 100 * fee_of g + 100).
    { intros g H. rewrite (fee_of_floor g H).
      pose proof (Z.div_mod (g * 5) 100 ltac:(lia)).
      pose proof (Z.mod_pos_bound (g * 5) 100 ltac:(lia)). lia. }
    pose proof (Hfee gross Hg) as H1. unfold net_of.
    split; [exact H1|]. split; [lia|]. split; [lia|].
    intros Hle. pose proof (Hfee gross' ltac:(lia)) as H2. lia.
Qed.

(** ** Amounts as text, in general *)

Lemma remove_first_absent (X : string) :
  Forall (fun c => is_space c = false) (list_ascii_of_string X) ->
  remove_first " ETH" X = X.
Proof.
  induction X as [|c X IH]; intros H; [reflexivity|].
  apply Forall_cons in H as [Hc HX].
  cbn [remove_first]. rewrite prefix_other.
  - now rewrite (IH HX).
  - destruct c as [[] [] [] [] [] [] [] []]; try reflexivity; discriminate Hc.
Qed.

(** A decimal with whole part [w] and [k] fraction digits, with or without
    the unit, is read by [parseETH] as the exact amount in wei. *)
Lemma parseETH_decimal (w f : Z) (k : nat) (suffix : bool) :
  0 <= w -> (k <= 18)%nat ->
  parseETH ((nat_toString w +:+ String "." (fixed_digits k f ""))
            +:+ (if suffix then " ETH" else ""))
  = Some (w * 10 ^ 18 + (f mod 10 ^ Z.of_nat k) * 10 ^ (18 - Z.of_nat k)).
Proof.
  intros Hw Hk. unfold parseETH.
  destruct (nat_toString_spec w Hw) as (Hne & HW & Hpw).
  destruct (fixed_digits_spec k f "") as (F & HF & Hlen & Hall & Hf).
  rewrite HF, append_nil_r.
  set (W := nat_toString w) in *.
  assert (Hplain : Forall (fun c => is_space c = false)
                          (list_ascii_of_string (W +:+ String "." F))).
  { rewrite list_ascii_app. apply Forall_app. split; [now apply digits_no_space|].
    simpl. constructor; [reflexivity|now apply digits_no_space]. }
  assert (Hclean : remove_first " ETH" ((W +:+ String "." F) +:+ (if suffix then " ETH" else ""))
                   = W +:+ String "." F).
  { destruct suffix; [now apply remove_first_suffix|].
    rewrite append_nil_r. now apply remove_first_absent. }
  rewrite Hclean, (trim_no_space _ Hplain).
  unfold Ethers.parseEther.
  replace 18%nat with (String.length F + (18 - k))%nat by (rewrite Hlen; lia).
  rewrite (parseUnits_fixed W F w (f mod 10 ^ Z.of_nat k) (18 - k) Hne HW Hall).
  - f_equal. rewrite Hlen.
    replace (Z.of_nat (18 - k)) with (18 - Z.of_nat k) by lia.
    replace (10 ^ 18) with (10 ^ Z.of_nat k * 10 ^ (18 - Z.of_nat k)).
    + ring.
    + rewrite <- Z.pow_add_r by lia. f_equal. lia.
  - rewrite Hpw. f_equal; lia.
  - intros a. rewrite Hf, Hlen. reflexivity.
Qed.


(** The double nearest to an amount of ether below a billion, rounded to
    six decimals, is less than a millionth away from the amount. *)
Lemma nearest_double_close (wei : Z) :
  0 < wei < 10 ^ 27 ->
  let m := fst (nearest_double wei (10 ^ 18)) in
  let e := snd (nearest_double wei (10 ^ 18)) in
  let n := round_half_up (m * 10 ^ 6) e in
  ge_1e21 m e = false /\ 0 <= n <= 10 ^ 15 /\
  - 10 ^ 12 < n * 10 ^ 12 - wei < 10 ^ 12.
Proof.
  intros Hwei. unfold nearest_double. cbn [fst snd]. cbv zeta.
  set (num := wei). set (den := 10 ^ 18).
  set (l := Z.log2 num - Z.log2 den).
  set (b := if below_pow2 num den l then l - 1 else l).
  assert (Hnum : 0 < num < den * 2 ^ 33) by (subst num den; lia).
  assert (Hb : b <= 32).
  { assert (Hl : l <= 33).
    { subst l. assert (Z.log2 num <= Z.log2 (den * 2 ^ 33)) by (apply Z.log2_le_mono; lia).
      replace (Z.log2 (den * 2 ^ 33)) with (Z.log2 den + 33) in H by (subst den; reflexivity).
      lia. }
    subst b. destruct (Z.eq_dec l 33) as [E|E].
    - rewrite E. unfold below_pow2. cbn [Z.leb Z.compare].
      destruct (num <? den * 2 ^ 33) eqn:Elt; [lia|]. apply Z.ltb_ge in Elt. lia.
    - destruct (below_pow2 num den l); lia. }
  set (e := b - 52). assert (He : e <= -20) by (subst e; lia).
  destruct (0 <=? e) eqn:E0; [apply Z.leb_le in E0; lia|]. clear E0.
  set (p := 2 ^ (- e)).
  assert (Hp : 2 ^ 20 <= p) by (subst p; apply Z.pow_le_mono_r; lia).
  set (m := rne (num * p) den).
  pose proof (rne_error (num * p) den ltac:(subst den; lia)) as Hm. fold m in Hm.
  subst num den.
  assert (Hm0 : 0 <= m) by nia.
  assert (Hround : round_half_up (m * 10 ^ 6) e = (2 * (m * 10 ^ 6) + p) / (2 * p)).
  { unfold round_half_up. destruct (0 <=? e) eqn:E0; [apply Z.leb_le in E0; lia|].
    fold p. f_equal. subst p. replace (1 - e) with (Z.succ (- e)) by lia.
    rewrite Z.pow_succ_r by lia. reflexivity. }
  rewrite Hround. set (n := (2 * (m * 10 ^ 6) + p) / (2 * p)).
  pose proof (Z.div_mod (2 * (m * 10 ^ 6) + p) (2 * p) ltac:(lia)) as Hdiv.
  pose proof (Z.mod_pos_bound (2 * (m * 10 ^ 6) + p) (2 * p) ltac:(lia)) as Hmod.
  fold n in Hdiv.
  assert (Hclose : - 10 ^ 12 < n * 10 ^ 12 - wei < 10 ^ 12).
  { set (pn := p * n) in *. set (pw := wei * p) in *.
    replace (2 * p * n) with (2 * pn) in Hdiv by (subst pn; ring).
    assert (H1 : 2 * (pn * 10 ^ 12 - pw) < 2 * (p * 10 ^ 12)) by lia.
    assert (H2 : - (2 * (p * 10 ^ 12)) < 2 * (pn * 10 ^ 12 - pw)) by lia.
    subst pn pw. nia. }
  split; [|split; [split|exact Hclose]].
  - unfold ge_1e21. destruct (0 <=? e) eqn:E0; [apply Z.leb_le in E0; lia|].
    fold p. apply Z.leb_gt. nia.
  - apply Z.div_pos; lia.
  - lia.
Qed.

Lemma formatETH_as_micro (wei : Z) :
  0 <= wei < 10 ^ 27 ->
  exists k : Z, 0 <= k <= 10 ^ 15 /\ - 10 ^ 12 < k * 10 ^ 12 - wei < 10 ^ 12 /\
                formatETH wei = micro_text k.
Proof.
  intros Hwei. destruct (Z.eq_dec wei 0) as [->|Hnz].
  { exists 0. split; [lia|]. split; [lia|reflexivity]. }
  destruct (nearest_double_close wei ltac:(lia)) as (Hge & Hn & Hclose).
  eexists. split; [exact Hn|]. split; [exact Hclose|].
  unfold formatETH, micro_text. f_equal.
  unfold parseFloat, Ethers.formatEther.
  destruct (wei =? 0) eqn:E0; [apply Z.eqb_eq in E0; lia|].
  destruct (wei <? 0) eqn:E1; [apply Z.ltb_lt in E1; lia|].
  rewrite Z.abs_eq by lia.
  destruct (nearest_double wei (10 ^ 18)) as [m e]. cbn [fst snd] in Hge |- *.
  unfold toFixed. rewrite Hge. reflexivity.
Qed.

(** X22. What the passage through [formatETH] and [parseETH] costs: for an
    amount below a billion ether the text parses back to a whole number of
    millionths of an ether that is less than one millionth (10^12 wei) away
    from the amount, and formatting that value gives the same text again. *)
Theorem format_parse_within_a_millionth (wei : Z) :
  0 <= wei < 10 ^ 27 ->
  exists k : Z,
    parseETH (formatETH wei) = Some (k * 10 ^ 12) /\
    - 10 ^ 12 < k * 10 ^ 12 - wei < 10 ^ 12 /\
    formatETH (k * 10 ^ 12) = formatETH wei.
Proof.
  intros Hwei. destruct (formatETH_as_micro wei Hwei) as (k & Hk & Hclose & Htext).
  exists k. split; [|split; [exact Hclose|]].
  - rewrite Htext. unfold micro_text.
    pose proof (parseETH_decimal (k / 10 ^ 6) k 6 true ltac:(apply Z.div_pos; lia) ltac:(lia)) as H.
    cbv iota in H. rewrite H. f_equal.
    change (Z.of_nat 6) with 6. change (18 - 6) with 12.
    pose proof (Z.div_mod k (10 ^ 6) ltac:(lia)). lia.
  - rewrite Htext. apply formatETH_micro. lia.
Qed.

(** ** Statistics of the platform *)





(** ** One request alone, and the funding hash at [POST /test/e2e] *)


(** X25. [POST /test/e2e] has no duplicate check: whenever the funding
    transaction verifies and the transfer goes through, the route answers 200
    and stores one more record for the funding hash, however many records
    that hash has paid for already; if it had paid for one, funding hashes are
    no longer unique. *)
Theorem e2e_accepts_used_funding (req : request) (w : world) (st : state)
    (txHash hash : string) (tx : transaction) :
  field (body req) "txHash" = Some txHash ->
  funding_verified w tx -> wallet w = Ok true -> send_result w = Ok hash ->
  Map_get (uuid_id w) (grants st) = None ->
  fst (fst (post_test_e2e req w st)) = 200 /\
  length (funded_by txHash (snd (post_test_e2e req w st))) = S (length (funded_by txHash st)) /\
  length (transfers (snd (post_test_e2e req w st))) = S (length (transfers st)) /\
  (funded_by txHash st <> [] -> ~ unique_funding (snd (post_test_e2e req w st))).
Proof.
  intros Hh (Htx & (rc & Hrc & Hstatus) & Hto) Hw Hsend Hfresh.
  unfold post_test_e2e. rewrite Hh, Htx, Hrc, Hstatus, Hw, Hsend.
  rewrite bool_decide_eq_true_2 by exact Hto. simpl negb. cbv iota zeta. cbn [fst snd].
  set (target := match field (body req) "recipient" with Some r => r | None => TREASURY_ADDRESS end).
  set (g := e2e_grant w target txHash tx hash).
  assert (Hvalues : Map_values (grants (store_grant g (log_transfer target (net_of (tx_value tx)) st)))
                    = Map_values (grants st) ++ [g]).
  { unfold store_grant, log_transfer. cbn [grants]. change (id g) with (uuid_id w).
    rewrite (Map_set_fresh _ _ _ Hfresh). unfold Map_values. now rewrite map_app. }
  split; [reflexivity|]. split; [|split].
  - unfold funded_by. rewrite Hvalues, List.filter_app, length_app.
    unfold same_funding_tx at 2. simpl. change (fundingTxHash g) with txHash.
    rewrite String.eqb_refl. simpl. lia.
  - unfold store_grant, log_transfer. cbn [transfers]. rewrite length_app. simpl. lia.
  - intros Hused. unfold unique_funding. rewrite Hvalues, map_app. simpl.
    change (fundingTxHash g) with txHash.
    intros Hn. apply NoDup_app in Hn as (_ & Hn & _).
    destruct (funded_by txHash st) as [|g0 l] eqn:E; [now contradiction Hused|].
    assert (Hin : In g0 (funded_by txHash st)) by (rewrite E; now left).
    unfold funded_by in Hin. apply List.filter_In in Hin as [Hin Hsame].
    unfold same_funding_tx in Hsame. apply String.eqb_eq in Hsame.
    apply (Hn (toLowerCase txHash)).
    + rewrite <- Hsame. apply list_elem_of_fmap. exists g0.
      split; [reflexivity|now apply list_elem_of_In].
    + apply elem_of_cons. now left.
Qed.

(** ** The landing page, mock grants, and requests stopped early *)


(** X27. What a 201 of [POST /grants] means in mock mode: the stored
    record and the answer are flagged [mock], the distribution hash is
    [0xmock] followed by an identifier without its dashes, the grantor is the
    [grantor] field of the request or else forty ones after [0x], in lower
    case, and the gross amount is what [parseETH] reads in the [amount] field,
    or 0.01 ether without one.  Outside mock mode the answer has no [mock]
    property. *)
Theorem mock_grant_is_marked (req : request) (w : world) (st : state) :
  fst (fst (post_grants req w st)) = 201 ->
  exists g : grant,
    Map_get (uuid_id w) (grants (snd (post_grants req w st))) = Some g /\
    mock g = isMock req /\
    property "mock" (fst (post_grants req w st))
    = (if isMock req then Some (JBool true) else None) /\
    (isMock req = true ->
     distributionTxHash g = "0xmock" +:+ remove_dashes (uuid_mock w) /\
     grantor g = toLowerCase (match field (body req) "grantor" with
                              | Some a => a
                              | None => "0x" +:+ repeat_string "1" 40
                              end) /\
     Some (amount_value (grossAmount g))
     = match field (body req) "amount" with
       | Some amount => parseETH amount
       | None => Some (10 ^ 16)
       end).
Proof.
  intros Hs. destruct (post_grants req w st) as [resp st'] eqn:E. simpl in Hs |- *.
  apply post_grants_inv in E as [(Hs' & _)|E]; [lia|].
  destruct E as (st0 & rcp & txHash & gross & txFrom & hash & st1 & _ & _ & _ & _
                 & _ & Hfund & Hdist & -> & ->).
  eexists. split; [rewrite record_grant_grants; apply Map_get_set|].
  split; [reflexivity|]. split.
  - unfold property, created_body. cbn [snd mock new_grant].
    destruct (isMock req); reflexivity.
  - intros Hm. unfold funding_of in Hfund. rewrite Hm in Hfund, Hdist.
    unfold distribute in Hdist. injection Hdist as <- _.
    cbn [new_grant distributionTxHash grantor grossAmount].
    rewrite amount_value_toString. split; [reflexivity|].
    unfold mock_funding in Hfund.
    destruct (field (body req) "amount") as [amount|].
    + destruct (parseETH amount) as [v|]; simpl in Hfund; [|discriminate].
      injection Hfund as <- <-. split; [|reflexivity].
      now destruct (field (body req) "grantor").
    + simpl in Hfund. injection Hfund as <- <-. split; [|reflexivity].
      now destruct (field (body req) "grantor").
Qed.

(** X28. A request that the gate or the checks of its fields stop, for a
    missing or malformed recipient, a missing hash, or a funding hash already
    used, is answered 400 or 403 without the chain being consulted: the
    answer and the state are the same whatever the provider and the wallet
    would have said, and no transfer is made. *)
Theorem stopped_before_chain (req : request) (w w' : world) (st : state) :
  stopped_early req w st -> same_local_answers w w' ->
  post_grants req w st = post_grants req w' st /\
  (fst (fst (post_grants req w st)) = 400 \/ fst (fst (post_grants req w st)) = 403) /\
  transfers (snd (post_grants req w st)) = transfers st.
Proof.
  intros Hstop (Hc & Hf & _). unfold stopped_early in Hstop. unfold post_grants.
  rewrite <- (requireWhitelist_local "address" req w w' st Hc Hf).
  pose proof (requireWhitelist_ledger "address" req w st) as (_ & _ & Ht).
  unfold requireWhitelist in *.
  destruct (candidate_address "address" (body req)) as [addr|]; [|simpl; auto].
  destruct (fetchWhitelist w st) as [whitelist st0]. case_decide; simpl in *; [|auto].
  unfold post_grants_handler.
  destruct (grants_precheck req st0) as [r|] eqn:Hpre; [|now contradiction Hstop].
  simpl. split; [reflexivity|]. split; [|exact Ht].
  left. now apply (grants_precheck_status req st0).
Qed.

End Coverage.

(** * Further worked examples *)

Section CoverageExamples.

Import JS.

(** The first of two live grants is still returned, unchanged, after the
    second. *)
Lemma recorded_grant_stays_retrievable_witness :
  exists g : grant,
    id g = uuid_1 /\
    property "grant" (fst (apply_operation first_live initial_state)) = Some (grant_json g) /\
    get_grant (id g) (snd (apply_operation first_live initial_state)) = (200, grant_json g) /\
    get_grant (id g) (run_operations [second_live] (snd (apply_operation first_live initial_state)))
    = (200, grant_json g).
Proof.
  apply (recorded_grant_stays_retrievable first_live [second_live] initial_state).
  - vm_compute. reflexivity.
  - split; [vm_compute; reflexivity|exact I].
Defined.

(** The live grant of [one_grant]: one transfer of 95% of the funding to
    [bob], as written in the request. *)
Lemma live_grant_is_backed_witness :
  exists (tx : transaction) (hash rcp : string) (g : grant),
    funding_verified (sample_world uuid_1 1000 (10 ^ 16)) tx /\
    send_result (sample_world uuid_1 1000 (10 ^ 16)) = Ok hash /\
    field (body (sample_request tx_f00d)) "recipient" = Some rcp /\
    transfers (snd (post_grants (sample_request tx_f00d) (sample_world uuid_1 1000 (10 ^ 16))
                                initial_state))
    = transfers initial_state ++ [(rcp, net_of (tx_value tx))] /\
    Map_get (uuid_id (sample_world uuid_1 1000 (10 ^ 16)))
            (grants (snd (post_grants (sample_request tx_f00d)
                                      (sample_world uuid_1 1000 (10 ^ 16)) initial_state)))
    = Some g /\
    grossAmount g = BigInt_toString (tx_value tx) /\
    netAmount g = BigInt_toString (net_of (tx_value tx)) /\
    recipient g = toLowerCase rcp /\
    distributionTxHash g = hash /\
    mock g = false /\
    grantor g = toLowerCase (match field (body (sample_request tx_f00d)) "grantor" with
                             | Some a => a
                             | None => tx_from tx
                             end).
Proof.
  apply (live_grant_is_backed (sample_request tx_f00d) (sample_world uuid_1 1000 (10 ^ 16))
           initial_state).
  - vm_compute. reflexivity.
  - vm_compute. reflexivity.
Defined.

(** The second grant of [alice] brings her statistics from one grant of
    0.01 ether to two grants and 0.03 ether. *)
Lemma grant_updates_grantor_stats_witness :
  exists (g : grant) (gross : Z),
    Map_get uuid_2 (grants (snd (post_grants (sample_request tx_cafe)
                                             (sample_world uuid_2 2000 (2 * 10 ^ 16)) one_grant)))
    = Some g /\
    gross = 2 * 10 ^ 16 /\
    grantors (snd (post_grants (sample_request tx_cafe)
                               (sample_world uuid_2 2000 (2 * 10 ^ 16)) one_grant)) !! grantor g
    = Some {| totalGrants := 2; totalAmount := 3 * 10 ^ 16 |}.
Proof.
  destruct (grant_updates_grantor_stats (sample_request tx_cafe)
              (sample_world uuid_2 2000 (2 * 10 ^ 16)) one_grant)
    as (g & gross & Hg & Hgross & Hstats & _).
  - vm_compute. reflexivity.
  - exists g, gross. split; [exact Hg|]. split.
    + vm_compute in Hgross. injection Hgross as <-. reflexivity.
    + rewrite Hstats. vm_compute in Hg. injection Hg as <-.
      vm_compute in Hgross. injection Hgross as <-. vm_compute. reflexivity.
Defined.


(** After the two live grants each funding hash has paid for one grant. *)
Lemma funding_pays_once_witness :
  unique_funding (run_operations [first_live; second_live] initial_state) /\
  (length (funded_by tx_F00D (run_operations [first_live; second_live] initial_state)) <= 1)%nat.
Proof.
  apply (funding_pays_once [first_live; second_live] initial_state tx_F00D).
  - repeat constructor.
  - constructor.
Defined.

(** A mock grant comes out the same with the chain out of reach. *)
Lemma mock_grant_touches_no_chain_witness :
  post_grants (mock_request tx_beef "1.5") (sample_world uuid_1 1000 0) initial_state
  = post_grants (mock_request tx_beef "1.5") (chainless_world uuid_1 1000) initial_state /\
  transfers (snd (post_grants (mock_request tx_beef "1.5") (sample_world uuid_1 1000 0)
                              initial_state))
  = transfers initial_state.
Proof.
  apply (mock_grant_touches_no_chain (mock_request tx_beef "1.5") (sample_world uuid_1 1000 0)
           (chainless_world uuid_1 1000) initial_state).
  - vm_compute. reflexivity.
  - repeat split.
Defined.

(** Two mock requests for one hash, interleaved like the racing live ones:
    one record only. *)
Lemma mock_requests_never_race_witness :
  unique_funding (fst (run_schedule alternating (initial_state, mock_pool))) /\
  Forall mock_or_finished (snd (run_schedule alternating (initial_state, mock_pool))) /\
  transfers (fst (run_schedule alternating (initial_state, mock_pool))) = transfers initial_state.
Proof.
  apply (mock_requests_never_race alternating initial_state mock_pool).
  - repeat constructor.
  - constructor.
Defined.

(** The racing pair of [racing_pool] as an instance of the general race. *)
Lemma race_breaks_uniqueness_witness :
  Forall (fun t => exists r, t = Finished r /\ fst r = 201)
         (snd (run_schedule alternating (initial_state, racing_pool))) /\
  length (funded_by tx_f00d (fst (run_schedule alternating (initial_state, racing_pool))))
  = (length (funded_by tx_f00d initial_state) + 2)%nat /\
  ~ unique_funding (fst (run_schedule alternating (initial_state, racing_pool))) /\
  transfers (fst (run_schedule alternating (initial_state, racing_pool)))
  = transfers initial_state ++ [(bob, net_of (10 ^ 16)); (bob, net_of (10 ^ 16))].
Proof.
  apply (race_breaks_uniqueness (sample_request tx_f00d) (sample_request tx_f00d)
           (sample_world uuid_a 1000 (10 ^ 16)) (sample_world uuid_b 1001 (10 ^ 16))
           initial_state gate_passed gate_passed bob tx_f00d bob tx_f00d
           (10 ^ 16) (10 ^ 16) alice alice sent_hash sent_hash).
  all: try (vm_compute; reflexivity).
  vm_compute. discriminate.
Defined.

(** [alice] is struck from the whitelist, but the set fetched four minutes
    ago still admits her; a minute later it no longer does. *)
Lemma whitelist_cached_for_ttl_witness :
  fetchWhitelist (later_world 241000) (snd (fetchWhitelist (sample_world uuid_1 1000 0) initial_state))
  = (list_to_set [toLowerCase alice; toLowerCase carol],
     snd (fetchWhitelist (sample_world uuid_1 1000 0) initial_state)) /\
  fst (fetchWhitelist (later_world 301000)
                      (snd (fetchWhitelist (sample_world uuid_1 1000 0) initial_state)))
  = list_to_set [toLowerCase carol].
Proof.
  destruct (whitelist_cached_for_ttl (sample_world uuid_1 1000 0) (later_world 241000)
              initial_state [toLowerCase alice; toLowerCase carol])
    as (_ & Hfresh & _); [exact I|reflexivity|].
  destruct (whitelist_cached_for_ttl (sample_world uuid_1 1000 0) (later_world 301000)
              initial_state [toLowerCase alice; toLowerCase carol])
    as (_ & _ & Hstale & _); [exact I|reflexivity|].
  split.
  - apply Hfresh. vm_compute. reflexivity.
  - apply (Hstale ltac:(vm_compute; discriminate) [toLowerCase carol]). reflexivity.
Defined.


(** An entry without an address: with no cache yet, [alice] is refused
    though her own entry is well formed. *)
Lemma malformed_entry_fails_fetch_witness :
  fetch_failed malformed_world /\
  fetchWhitelist malformed_world initial_state = (∅, initial_state) /\
  fst (fst (post_grants (sample_request tx_f00d) malformed_world initial_state)) = 403.
Proof.
  destruct (malformed_entry_fails_fetch (sample_request tx_f00d) malformed_world initial_state
              [EntryObject (Some alice); EntryObject None]) as (Hfail & Hfetch & Hgate).
  - reflexivity.
  - left. apply elem_of_cons. right. apply elem_of_cons. now left.
  - exact I.
  - split; [exact Hfail|]. split; [exact Hfetch|].
    destruct (Hgate eq_refl) as [H|H]; [|exact H].
    vm_compute in H. discriminate H.
Defined.

(** Of the two grants, [limit=-1] leaves the newer one, and [limit=all]
    leaves none. *)
Lemma listing_limit_edges_witness :
  map id (list_grants negative_limit_query two_grants) = [uuid_2] /\
  list_grants unreadable_limit_query two_grants = [].
Proof.
  destruct (listing_limit_edges negative_limit_query two_grants "-1") as (_ & Hneg & _);
    [vm_compute; reflexivity|].
  destruct (listing_limit_edges unreadable_limit_query two_grants "all") as (Hnan & _);
    [vm_compute; reflexivity|].
  split.
  - rewrite (Hneg (-1)); [vm_compute; reflexivity|vm_compute; reflexivity|lia].
  - apply Hnan. vm_compute. reflexivity.
Defined.




(** 1.234567890123456789 ether comes back as 1.234568 ether. *)
Lemma format_parse_within_a_millionth_witness :
  exists k : Z,
    parseETH (formatETH 1234567890123456789) = Some (k * 10 ^ 12) /\
    - 10 ^ 12 < k * 10 ^ 12 - 1234567890123456789 < 10 ^ 12 /\
    formatETH (k * 10 ^ 12) = formatETH 1234567890123456789.
Proof.
  apply (format_parse_within_a_millionth 1234567890123456789). lia.
Defined.

(** The funding hash of [one_grant] at [POST /test/e2e]: a second record
    and a second transfer. *)
Lemma e2e_accepts_used_funding_witness :
  fst (fst (post_test_e2e (sample_request tx_F00D) (sample_world uuid_2 2000 (10 ^ 16)) one_grant))
  = 200 /\
  length (funded_by tx_F00D
            (snd (post_test_e2e (sample_request tx_F00D) (sample_world uuid_2 2000 (10 ^ 16))
                                one_grant))) = 2%nat /\
  ~ unique_funding (snd (post_test_e2e (sample_request tx_F00D)
                                       (sample_world uuid_2 2000 (10 ^ 16)) one_grant)).
Proof.
  destruct (e2e_accepts_used_funding (sample_request tx_F00D) (sample_world uuid_2 2000 (10 ^ 16))
              one_grant tx_F00D sent_hash (sample_tx (10 ^ 16)))
    as (Hs & Hl & _ & Hu).
  - vm_compute. reflexivity.
  - split; [reflexivity|]. split; [|vm_compute; reflexivity].
    exists {| receipt_status := 1 |}. split; reflexivity.
  - reflexivity.
  - reflexivity.
  - vm_compute. reflexivity.
  - split; [exact Hs|]. split; [rewrite Hl; vm_compute; reflexivity|].
    apply Hu. vm_compute. discriminate.
Defined.

(** A mock grant of 1.5 ether by [alice]'s request: flagged, and marked in
    its distribution hash. *)
Lemma mock_grant_is_marked_witness :
  exists g : grant,
    Map_get uuid_1 (grants (one_mock_grant "1.5")) = Some g /\
    mock g = true /\
    distributionTxHash g = "0xmock00000000000040008000000000000000" /\
    amount_value (grossAmount g) = 15 * 10 ^ 17.
Proof.
  destruct (mock_grant_is_marked (mock_request tx_beef "1.5") (sample_world uuid_1 1000 0)
              initial_state) as (g & Hg & Hmock & _ & Hm); [vm_compute; reflexivity|].
  destruct (Hm ltac:(vm_compute; reflexivity)) as (Hhash & _ & Hgross).
  exists g. split; [exact Hg|]. split; [rewrite Hmock; vm_compute; reflexivity|].
  split; [rewrite Hhash; vm_compute; reflexivity|].
  match type of Hgross with
  | _ = ?r => assert (Hr : r = Some (15 * 10 ^ 17)) by (vm_compute; reflexivity)
  end.
  rewrite Hr in Hgross. injection Hgross as Hv. exact Hv.
Defined.

(** The request without a recipient is answered the same with the chain out
    of reach. *)
Lemma stopped_before_chain_witness :
  post_grants (request_without_recipient tx_F00D) (sample_world uuid_2 2000 (10 ^ 16)) one_grant
  = post_grants (request_without_recipient tx_F00D) (chainless_world uuid_2 2000) one_grant /\
  (fst (fst (post_grants (request_without_recipient tx_F00D)
                         (sample_world uuid_2 2000 (10 ^ 16)) one_grant)) = 400 \/
   fst (fst (post_grants (request_without_recipient tx_F00D)
                         (sample_world uuid_2 2000 (10 ^ 16)) one_grant)) = 403) /\
  transfers (snd (post_grants (request_without_recipient tx_F00D)
                              (sample_world uuid_2 2000 (10 ^ 16)) one_grant))
  = transfers one_grant.
Proof.
  apply (stopped_before_chain (request_without_recipient tx_F00D)
           (sample_world uuid_2 2000 (10 ^ 16)) (chainless_world uuid_2 2000) one_grant).
  - vm_compute. discriminate.
  - repeat split.
Defined.

End CoverageExamples.
